(** * VM.cpp: a stored-program virtual machine

    A shallow embedding of [src/VM.cpp]: the bounds-checked memory store
    ([class RAM]), the file-backed persistent store ([class Disk]) and the
    fetch-decode-execute engine ([class CPU]), followed by the properties of
    the engine that the specification states.

    Conventions.
    - Every C++ integer is a [Z]; the conversion to a fixed-width type is
      written out ([u8], [u16], [i16]) at the places where the source
      converts.
    - [std::vector<uint8_t> memory(RAM_SIZE, 0)] and the content of the disk
      file are sparse maps [gmap Z Z]; an absent key is the zero byte the
      source initialises with.
    - A failed [assert] and an access outside [regs[4]] (undefined
      behaviour in C++) end the run with a [Failure]; what a compiled
      program does after either is not modelled.
    - [std::cin] is the sequence of integers it will deliver (an extraction
      that blocks for ever or fails is not modelled), [std::cout] and
      [std::cerr] are a list of events.
    - The loop of [execute] takes a bound on the number of iterations
      ([fuel]); the statements about it hold for every bound that is large
      enough. *)

From Stdlib Require Import ZArith Lia List Bool.
From stdpp Require Import base tactics option list gmap fin_maps.

Local Open Scope Z_scope.

(** ** Fixed-width integers *)

(** Conversion to [uint8_t]. *)
Definition u8 (x : Z) : Z := x mod 256.

(** Conversion to [uint16_t]. *)
Definition u16 (x : Z) : Z := x mod 65536.

(** Conversion to [int16_t] (two's complement). *)
Definition i16 (x : Z) : Z := (x + 32768) mod 65536 - 32768.

Definition is_u8 (x : Z) : Prop := 0 <= x < 256.
Definition is_u16 (x : Z) : Prop := 0 <= x < 65536.

(** ** Constants *)

Definition RAM_SIZE : Z := 20 * 1024 * 1024.
Definition DISK_SIZE : Z := 100 * 1024 * 1024.

(** ** Machine state *)

(** What the engine writes on [std::cout] and [std::cerr]. *)
Inductive Event : Type :=
  | Prompt (operand : Z)            (* "Input value for R<operand>: " *)
  | Output (operand value : Z)      (* "Output R<operand>: <value>" *)
  | UnknownOpcode (opcode : Z).     (* "Unknown opcode: 0x<opcode>" on cerr *)

(** A request that reached one of the two stores (ghost state: it records
    the address handed to [RAM::read], [RAM::write], [Disk::read] and
    [Disk::write], most recent first). *)
Inductive Access : Type :=
  | RamRead (addr : Z)
  | RamWrite (addr : Z)
  | DiskRead (addr : Z)
  | DiskWrite (addr : Z).

(** The fields of [CPU], the two stores it refers to, and the console. *)
Record Machine : Type := mkMachine {
  regs : list Z;          (* uint8_t regs[4] *)
  pc : Z;                 (* uint16_t pc *)
  sp : Z;                 (* uint8_t sp *)
  zf : bool;              (* bool zf *)
  running : bool;         (* bool running *)
  memory : gmap Z Z;      (* RAM::memory *)
  file : gmap Z Z;        (* content of Disk::file *)
  cin : nat -> Z;         (* the integers std::cin delivers, in order *)
  cin_pos : nat;          (* how many of them have been consumed *)
  console : list Event;   (* std::cout and std::cerr, oldest first *)
  bus : list Access       (* ghost: store requests, most recent first *)
}.

Definition set_regs (v : list Z) (s : Machine) : Machine :=
  mkMachine v (pc s) (sp s) (zf s) (running s) (memory s) (file s)
            (cin s) (cin_pos s) (console s) (bus s).
Definition set_pc (v : Z) (s : Machine) : Machine :=
  mkMachine (regs s) v (sp s) (zf s) (running s) (memory s) (file s)
            (cin s) (cin_pos s) (console s) (bus s).
Definition set_sp (v : Z) (s : Machine) : Machine :=
  mkMachine (regs s) (pc s) v (zf s) (running s) (memory s) (file s)
            (cin s) (cin_pos s) (console s) (bus s).
Definition set_zf (v : bool) (s : Machine) : Machine :=
  mkMachine (regs s) (pc s) (sp s) v (running s) (memory s) (file s)
            (cin s) (cin_pos s) (console s) (bus s).
Definition set_running (v : bool) (s : Machine) : Machine :=
  mkMachine (regs s) (pc s) (sp s) (zf s) v (memory s) (file s)
            (cin s) (cin_pos s) (console s) (bus s).
Definition set_memory (v : gmap Z Z) (s : Machine) : Machine :=
  mkMachine (regs s) (pc s) (sp s) (zf s) (running s) v (file s)
            (cin s) (cin_pos s) (console s) (bus s).
Definition set_file (v : gmap Z Z) (s : Machine) : Machine :=
  mkMachine (regs s) (pc s) (sp s) (zf s) (running s) (memory s) v
            (cin s) (cin_pos s) (console s) (bus s).
Definition set_cin_pos (v : nat) (s : Machine) : Machine :=
  mkMachine (regs s) (pc s) (sp s) (zf s) (running s) (memory s) (file s)
            (cin s) v (console s) (bus s).
Definition emit (e : Event) (s : Machine) : Machine :=
  mkMachine (regs s) (pc s) (sp s) (zf s) (running s) (memory s) (file s)
            (cin s) (cin_pos s) (console s ++ [e]) (bus s).
Definition record (a : Access) (s : Machine) : Machine :=
  mkMachine (regs s) (pc s) (sp s) (zf s) (running s) (memory s) (file s)
            (cin s) (cin_pos s) (console s) (a :: bus s).

(** ** The monad of the engine: state and failure *)

Inductive Failure : Type :=
  | OutOfBounds       (* an [assert(addr < ..._SIZE)] failed *)
  | BadRegister       (* [regs[i]] with [i] outside 0..3 *)
  | OutOfFuel.        (* the loop of [execute] was cut short *)

Inductive Result (A : Type) : Type :=
  | Ok (a : A)
  | Fail (f : Failure).
Arguments Ok {A} a.
Arguments Fail {A} f.

Definition M (A : Type) : Type := Machine -> Result (A * Machine).

Definition ret {A} (a : A) : M A := fun s => Ok (a, s).
Definition bind {A B} (m : M A) (k : A -> M B) : M B :=
  fun s => match m s with
           | Ok (a, s') => k a s'
           | Fail f => Fail f
           end.
Definition fail {A} (f : Failure) : M A := fun _ => Fail f.
Definition get {A} (proj : Machine -> A) : M A := fun s => Ok (proj s, s).
Definition modify (f : Machine -> Machine) : M unit := fun s => Ok (tt, f s).

Notation "'do' x <- m ; k" := (bind m (fun x => k))
  (at level 10, x name, m at level 100, k at level 200).
Notation "m ;; k" := (bind m (fun _ => k))
  (at level 100, k at level 200, right associativity).

(** The byte a sparse store holds at [addr]. *)
Definition byte_at (m : gmap Z Z) (addr : Z) : Z := default 0 (m !! addr).

(** ** class RAM *)
Module RAM.

(** [assert(addr < RAM_SIZE); return memory[addr];] *)
Definition read (addr : Z) : M Z :=
  if addr <? RAM_SIZE then
    modify (record (RamRead addr));;
    do m <- get memory;
    ret (byte_at m addr)
  else fail OutOfBounds.

(** [assert(addr < RAM_SIZE); memory[addr] = value;] *)
Definition write (addr : Z) (value : Z) : M unit :=
  if addr <? RAM_SIZE then
    modify (record (RamWrite addr));;
    do m <- get memory;
    modify (set_memory (<[addr := value]> m))
  else fail OutOfBounds.

End RAM.

(** ** class Disk *)
Module Disk.

(** [assert(addr < DISK_SIZE); file.seekg(addr); file.read(&value, 1);] *)
Definition read (addr : Z) : M Z :=
  if addr <? DISK_SIZE then
    modify (record (DiskRead addr));;
    do f <- get file;
    ret (byte_at f addr)
  else fail OutOfBounds.

(** [assert(addr < DISK_SIZE); file.seekp(addr); file.write(&byte, 1);
    file.flush();] *)
Definition write (addr : Z) (value : Z) : M unit :=
  if addr <? DISK_SIZE then
    modify (record (DiskWrite addr));;
    do f <- get file;
    modify (set_file (<[addr := value]> f))
  else fail OutOfBounds.

End Disk.

(** ** class CPU *)
Module CPU.

(** [regs[i]] as an rvalue. The source does not check [i]; an index
    outside the four entries is undefined behaviour, here [BadRegister]. *)
Definition reg (i : Z) : M Z :=
  do r <- get regs;
  match r !! Z.to_nat i with
  | Some v => ret v
  | None => fail BadRegister
  end.

(** [regs[i] = v]. *)
Definition set_reg (i : Z) (v : Z) : M unit :=
  do r <- get regs;
  if (Z.to_nat i <? length r)%nat then modify (set_regs (<[Z.to_nat i := v]> r))
  else fail BadRegister.

(** [std::cin >> val]. *)
Definition read_int : M Z :=
  do input <- get cin;
  do k <- get cin_pos;
  modify (set_cin_pos (S k));;
  ret (input k).

(** [assert(pc < RAM_SIZE); return ram.read(pc++);]: the program counter
    is incremented, as a [uint16_t], before [RAM::read] runs on its old
    value. *)
Definition fetch : M Z :=
  do p <- get pc;
  if p <? RAM_SIZE then
    modify (set_pc (u16 (p + 1)));;
    RAM.read p
  else fail OutOfBounds.

(** [ram.write(sp--, val);] *)
Definition push (val : Z) : M unit :=
  do p <- get sp;
  modify (set_sp (u8 (p - 1)));;
  RAM.write p val.

(** [return ram.read(++sp);] *)
Definition pop : M Z :=
  do p <- get sp;
  modify (set_sp (u8 (p + 1)));;
  RAM.read (u8 (p + 1)).

(** [(static_cast<uint16_t>(high) << 8) | low]. *)
Definition addr16 (low high : Z) : Z := u16 (Z.lor (Z.shiftl high 8) low).

(** [zf = (regs[operand] == 0)]. *)
Definition update_zf (operand : Z) : M unit :=
  do r <- reg operand;
  modify (set_zf (r =? 0)).

(** The bodies of the cases of the [switch]. *)

Definition NOP : M unit := ret tt.

Definition LOAD (operand : Z) : M unit :=
  do imm <- fetch;
  set_reg operand imm;;
  update_zf operand.

Definition STORE (operand : Z) : M unit :=
  do addr <- fetch;
  do r <- reg operand;
  RAM.write addr r.

Definition ADD (operand : Z) : M unit :=
  do reg_m <- fetch;
  do a <- reg operand;
  do b <- reg reg_m;
  let res := u16 (a + b) in
  set_reg operand (u8 (Z.land res 255));;
  update_zf operand.

Definition SUB (operand : Z) : M unit :=
  do reg_m <- fetch;
  do a <- reg operand;
  do b <- reg reg_m;
  let res := i16 (a - b) in
  set_reg operand (u8 (Z.land res 255));;
  update_zf operand.

Definition JMP : M unit :=
  do low <- fetch;
  do high <- fetch;
  modify (set_pc (addr16 low high)).

Definition JZ : M unit :=
  do low <- fetch;
  do high <- fetch;
  let addr := addr16 low high in
  do z <- get zf;
  if z then modify (set_pc addr) else ret tt.

Definition CALL : M unit :=
  do low <- fetch;
  do high <- fetch;
  let addr := addr16 low high in
  do p <- get pc;
  push (u8 (Z.land (Z.shiftr p 8) 255));;
  do p <- get pc;
  push (u8 (Z.land p 255));;
  modify (set_pc addr).

Definition RET : M unit :=
  do low <- pop;
  do high <- pop;
  modify (set_pc (addr16 low high)).

Definition IN (operand : Z) : M unit :=
  modify (emit (Prompt operand));;
  do val <- read_int;
  set_reg operand (u8 (Z.land val 255));;
  update_zf operand.

Definition OUT (operand : Z) : M unit :=
  do r <- reg operand;
  modify (emit (Output operand r)).

Definition DISK_READ (operand : Z) : M unit :=
  do low <- fetch;
  do high <- fetch;
  let addr := addr16 low high in
  do v <- Disk.read addr;
  set_reg operand v;;
  update_zf operand.

Definition DISK_WRITE (operand : Z) : M unit :=
  do low <- fetch;
  do high <- fetch;
  let addr := addr16 low high in
  do r <- reg operand;
  Disk.write addr r.

Definition HALT : M unit := modify (set_running false).

Definition unknown (opcode : Z) : M unit :=
  modify (emit (UnknownOpcode opcode));;
  modify (set_running false).

(** The [switch (opcode)]. *)
Definition dispatch (opcode operand : Z) : M unit :=
  match opcode with
  | 0 => NOP
  | 1 => LOAD operand
  | 2 => STORE operand
  | 3 => ADD operand
  | 4 => SUB operand
  | 5 => JMP
  | 6 => JZ
  | 7 => CALL
  | 8 => RET
  | 9 => IN operand
  | 10 => OUT operand
  | 11 => DISK_READ operand
  | 12 => DISK_WRITE operand
  | 15 => HALT
  | _ => unknown opcode
  end.

(** One iteration of the [while (running)] loop. *)
Definition step : M unit :=
  do instr <- fetch;
  let opcode := u8 (Z.shiftr instr 4) in
  let operand := u8 (Z.land instr 15) in
  dispatch opcode operand.

(** [while (running) { ... }], cut after [fuel] iterations. *)
Fixpoint loop (fuel : nat) (s : Machine) : Result Machine :=
  if running s then
    match fuel with
    | O => Fail OutOfFuel
    | S fuel' =>
        match step s with
        | Ok (_, s') => loop fuel' s'
        | Fail f => Fail f
        end
    end
  else Ok s.

Definition execute (fuel : nat) (s : Machine) : Result Machine :=
  loop fuel (set_running true s).

End CPU.

(** The state [main] builds: a zeroed RAM, the engine's member initialisers
    and whatever the disk file holds. *)
Definition power_on (disk : gmap Z Z) (input : nat -> Z) : Machine :=
  mkMachine [0; 0; 0; 0] 0 255 false false ∅ disk input 0%nat [] [].

(** [ram.write(base, b0); ram.write(base + 1, b1); ...] by the host. *)
Fixpoint load_program (base : Z) (bytes : list Z) (m : gmap Z Z) : gmap Z Z :=
  match bytes with
  | [] => m
  | b :: rest => load_program (base + 1) rest (<[base := b]> m)
  end.

(** ** Well-formed states

    The ranges the C++ types impose: four 8-bit registers, a 16-bit program
    counter, an 8-bit stack pointer, bytes in both stores. Every state the
    program can be in satisfies them. *)
Record wf (s : Machine) : Prop := mk_wf {
  wf_regs_len : length (regs s) = 4%nat;
  wf_regs : Forall is_u8 (regs s);
  wf_pc : is_u16 (pc s);
  wf_sp : is_u8 (sp s);
  wf_memory : map_Forall (fun _ v => is_u8 v) (memory s);
  wf_file : map_Forall (fun _ v => is_u8 v) (file s)
}.

(** ** Reading the instruction at the program counter *)

(** The instruction word at the program counter and its two fields. *)
Definition instr_at (s : Machine) : Z := byte_at (memory s) (pc s).
Definition opcode_at (s : Machine) : Z := u8 (Z.shiftr (instr_at s) 4).
Definition operand_at (s : Machine) : Z := u8 (Z.land (instr_at s) 15).

(** The [k]-th byte after the instruction word (the program counter wraps). *)
Definition arg_at (s : Machine) (k : Z) : Z :=
  byte_at (memory s) (u16 (pc s + k)).

(** The 16-bit address a three-byte instruction at the program counter
    carries: low byte first. *)
Definition target_at (s : Machine) : Z :=
  CPU.addr16 (arg_at s 1) (arg_at s 2).

(** Register [i], for reading in statements. *)
Definition reg_at (s : Machine) (i : Z) : option Z := regs s !! Z.to_nat i.

(** The state right after the instruction word has been fetched. *)
Definition fetched (s : Machine) : Machine :=
  record (RamRead (pc s)) (set_pc (u16 (pc s + 1)) s).

(** The opcodes the [switch] has a case for. *)
Definition known (op : Z) : Prop := 0 <= op <= 12 \/ op = 15.

(** ** Executions *)

(** One iteration of the loop of [execute], taken because [running] holds. *)
Definition step_rel (s s' : Machine) : Prop :=
  running s = true /\ CPU.step s = Ok (tt, s').

(** The states an execution passes through. *)
Definition reaches : Machine -> Machine -> Prop := rtc step_rel.

(** ** Register indices (C9) *)

(** The opcodes whose case indexes [regs] with the low nibble, and those
    that index it with the byte that follows. *)
Definition uses_operand (op : Z) : bool :=
  existsb (Z.eqb op) [1; 2; 3; 4; 9; 10; 11; 12].
Definition uses_reg_m (op : Z) : bool :=
  existsb (Z.eqb op) [3; 4].

(** The opcodes whose case assigns [zf]. *)
Definition sets_zf (op : Z) : bool :=
  existsb (Z.eqb op) [1; 3; 4; 9; 11].

(** An instruction with opcode [op], low nibble [n] and next byte [m]
    indexes the register file with values that are at most 3. *)
Definition idx_ok (op n m : Z) : Prop :=
  (uses_operand op = true -> n <= 3) /\ (uses_reg_m op = true -> m <= 3).

(** The same of the instruction at the program counter. *)
Definition indices_in_range (s : Machine) : Prop :=
  idx_ok (opcode_at s) (operand_at s) (arg_at s 1).

(** ** Addresses handed to the stores (C10) *)

(** Instruction fetches and pops read below 65536, every write to memory is
    a [STORE] or a push and goes below 256, disk addresses are 16-bit. *)
Definition access_ok (a : Access) : Prop :=
  match a with
  | RamRead addr => 0 <= addr < 65536
  | RamWrite addr => 0 <= addr < 256
  | DiskRead addr => 0 <= addr < 65536
  | DiskWrite addr => 0 <= addr < 65536
  end.

(** The requests [b'] are the requests [b] followed by further ones that
    all satisfy [access_ok]. *)
Definition extends_ok (b b' : list Access) : Prop :=
  exists l, b' = l ++ b /\ Forall access_ok l.

(** The check of [RAM::read]/[RAM::write], respectively of [Disk::read]/
    [Disk::write], passes for the address of this request. *)
Definition within_capacity (a : Access) : Prop :=
  match a with
  | RamRead addr | RamWrite addr => 0 <= addr < RAM_SIZE
  | DiskRead addr | DiskWrite addr => 0 <= addr < DISK_SIZE
  end.

(** ** Disk durability (C7) *)

(** The instruction at the program counter is [DISK_WRITE _, a]. *)
Definition writes_disk_at (a : Z) (s : Machine) : Prop :=
  opcode_at s = 12 /\ target_at s = a.

(** What may happen between a [DISK_WRITE] to [a] and a later [DISK_READ]:
    the engine executes instructions other than a [DISK_WRITE] to [a], and
    the host starts over (another [execute], or another process with a new
    CPU and a new RAM), which keeps nothing but the disk file. *)
Inductive undisturbed (a : Z) : Machine -> Machine -> Prop :=
  | undisturbed_refl s : undisturbed a s s
  | undisturbed_step s s' s'' :
      ~ writes_disk_at a s ->
      CPU.step s = Ok (tt, s') ->
      undisturbed a s' s'' ->
      undisturbed a s s''
  | undisturbed_restart s s' s'' :
      wf s' ->
      file s' = file s ->
      undisturbed a s' s'' ->
      undisturbed a s s''.

(** ** The scenario of C8 *)

(** A fresh machine with [bytes] loaded at address 0 and [pc = 0]. *)
Definition boot (bytes : list Z) : Machine :=
  set_memory (load_program 0 bytes ∅) (power_on ∅ (fun _ => 0)).

Definition scenario : list Z := [0x10; 0x05; 0x1F; 0x00].
Definition scenario_halting : list Z := [0x10; 0x05; 0xF0].

(** ** Checking well-formedness by computation *)

Definition is_u8b (x : Z) : bool := (0 <=? x) && (x <? 256).
Definition is_u16b (x : Z) : bool := (0 <=? x) && (x <? 65536).

Definition bytesb (m : gmap Z Z) : bool :=
  forallb (fun kv => is_u8b kv.2) (map_to_list m).

Definition wfb (s : Machine) : bool :=
  (length (regs s) =? 4)%nat && forallb is_u8b (regs s) &&
  is_u16b (pc s) && is_u8b (sp s) && bytesb (memory s) && bytesb (file s).

(** ** Sample states *)

(** A fresh machine whose memory holds [bytes] from address [base] on and
    [more] from address 0 on. *)
Definition boot_with (base : Z) (bytes more : list Z) : Machine :=
  set_memory (load_program base bytes (load_program 0 more ∅))
             (power_on ∅ (fun _ => 0)).

(** [CALL 0x0010] at address 0, [RET] at address 0x0010. *)
Definition call_sample : Machine := boot_with 0x10 [0x80] [0x70; 0x10; 0x00].

(** [ADD R0, R1] and [SUB R0, R1] with R0 = 200 and R1 = 100. *)
Definition add_sample : Machine := set_regs [200; 100; 0; 0] (boot [0x30; 0x01]).
Definition sub_sample : Machine := set_regs [100; 200; 0; 0] (boot [0x40; 0x01]).

(** An instruction byte with opcode 13, in a running engine. *)
Definition unknown_sample : Machine := set_running true (boot [0xD2]).

(** [LOAD R1, 0]. *)
Definition load_sample : Machine := boot [0x11; 0x00].

(** [JZ 0x1234] with the zero-flag set. *)
Definition jz_sample : Machine := set_zf true (boot [0x60; 0x34; 0x12]).

(** [DISK_WRITE R0, 0x1234] with R0 = 42, followed by a [NOP]. *)
Definition disk_write_sample : Machine :=
  set_regs [42; 0; 0; 0] (boot [0xC0; 0x34; 0x12; 0x00]).

(** A machine started anew over the disk file of [s], about to execute
    [DISK_READ R1, 0x1234]. *)
Definition disk_read_sample (s : Machine) : Machine :=
  set_file (file s) (boot [0xB1; 0x34; 0x12]).

(** ** Instruction lengths and sequences of stack operations *)

(** The number of bytes the case of [op] fetches, the instruction byte
    included. *)
Definition instr_length (op : Z) : Z :=
  match op with
  | 1 | 2 | 3 | 4 => 2
  | 5 | 6 | 7 | 11 | 12 => 3
  | _ => 1
  end.

(** [push(v0); push(v1); ...] *)
Fixpoint push_all (values : list Z) : M unit :=
  match values with
  | [] => ret tt
  | v :: rest => CPU.push v;; push_all rest
  end.

(** [n] times [pop()]; the values in the order they come off the stack. *)
Fixpoint pop_n (n : nat) : M (list Z) :=
  match n with
  | O => ret []
  | S k => do v <- CPU.pop; do rest <- pop_n k; ret (v :: rest)
  end.

(** ** More sample states *)

(** [STORE R0, 0x80] with R0 = 7. *)
Definition store_sample : Machine := set_regs [7; 0; 0; 0] (boot [0x20; 0x80]).

(** [JMP 0x1234]. *)
Definition jmp_sample : Machine := boot [0x50; 0x34; 0x12].

(** [HALT], in a running engine. *)
Definition halt_sample : Machine := set_running true (boot [0xF0]).


(** [OUT R0] with R0 = 9. *)
Definition out_sample : Machine := set_regs [9; 0; 0; 0] (boot [0xA0]).

(** [RET] as the first instruction, the stack pointer at its initial 0xFF. *)
Definition ret_sample : Machine := boot [0x80; 0x12].

(** [ADD R0, R1; SUB R0, R1] with R0 = 200 and R1 = 100. *)
Definition add_then_sub_sample : Machine :=
  set_regs [200; 100; 0; 0] (boot [0x30; 0x01; 0x40; 0x01]).

(** [SUB R1, R1] with R1 = 77. *)
Definition sub_self_sample : Machine :=
  set_regs [0; 77; 0; 0] (boot [0x41; 0x01]).

(** [LOAD R0, 5; HALT], in a running engine. *)
Definition halting_sample : Machine := set_running true (boot scenario_halting).

(** [SUB R0, R1; JZ 0x1234] with R0 = R1 = 5. *)
Definition compare_sample : Machine :=
  set_regs [5; 5; 0; 0] (boot [0x40; 0x01; 0x60; 0x34; 0x12]).

(** [CALL 0x00FF] at address 0x200, with the stack pointer at 0xFF. *)
Definition call_into_stack_sample : Machine :=
  set_pc 0x200 (boot_with 0x200 [0x70; 0xFF; 0x00] []).

(** ** Weakest preconditions for the engine's monad *)

(** [wp m s Q F]: running [m] from [s] either returns a value and a state
    that satisfy [Q], or fails with a failure that satisfies [F]. *)
Definition wp {A} (m : M A) (s : Machine)
    (Q : A -> Machine -> Prop) (F : Failure -> Prop) : Prop :=
  match m s with
  | Ok (a, s') => Q a s'
  | Fail f => F f
  end.

(** ** Arithmetic of the fixed-width conversions *)

Lemma u8_range x : is_u8 (u8 x).
Proof. unfold is_u8, u8. apply Z.mod_pos_bound. lia. Qed.

Lemma u16_range x : is_u16 (u16 x).
Proof. unfold is_u16, u16. apply Z.mod_pos_bound. lia. Qed.

Lemma u8_id x : is_u8 x -> u8 x = x.
Proof. unfold is_u8, u8. intros. apply Z.mod_small. lia. Qed.

Lemma u16_id x : is_u16 x -> u16 x = x.
Proof. unfold is_u16, u16. intros. apply Z.mod_small. lia. Qed.

Lemma land_255 x : Z.land x 255 = x mod 256.
Proof. change 255 with (Z.ones 8). rewrite Z.land_ones by lia. reflexivity. Qed.

Lemma land_15 x : Z.land x 15 = x mod 16.
Proof. change 15 with (Z.ones 4). rewrite Z.land_ones by lia. reflexivity. Qed.

Lemma shiftr_4 x : Z.shiftr x 4 = x / 16.
Proof. rewrite Z.shiftr_div_pow2 by lia. reflexivity. Qed.

Lemma shiftr_8 x : Z.shiftr x 8 = x / 256.
Proof. rewrite Z.shiftr_div_pow2 by lia. reflexivity. Qed.

Lemma opcode_range i : is_u8 i -> 0 <= u8 (Z.shiftr i 4) < 16.
Proof.
  unfold is_u8, u8. intros Hi. rewrite shiftr_4.
  assert (0 <= i / 16 < 16).
  { split; [apply Z.div_pos; lia | apply Z.div_lt_upper_bound; lia]. }
  rewrite Z.mod_small; lia.
Qed.

Lemma operand_range i : 0 <= u8 (Z.land i 15) < 16.
Proof.
  unfold u8. rewrite land_15.
  pose proof (Z.mod_pos_bound i 16). rewrite Z.mod_small; lia.
Qed.

Lemma u8_land_255 x : u8 (Z.land x 255) = u8 x.
Proof. unfold u8. rewrite land_255. apply Z.mod_mod. lia. Qed.

(** [h << 8 | l] is [h * 256 + l] when [l] is a byte. *)
Lemma lor_shiftl_8 h l : is_u8 l -> Z.lor (Z.shiftl h 8) l = h * 256 + l.
Proof.
  unfold is_u8. intros Hl.
  rewrite Z.shiftl_mul_pow2 by lia. change (2 ^ 8) with 256.
  assert (Hdisj : Z.land (h * 256) l = 0).
  { apply Z.bits_inj'. intros n Hn. rewrite Z.land_spec, Z.bits_0.
    destruct (Z.lt_ge_cases n 8).
    - change 256 with (2 ^ 8). rewrite Z.mul_pow2_bits_low by lia. reflexivity.
    - rewrite <- (Z.mod_small l (2 ^ 8)) by (change (2 ^ 8) with 256; lia).
      rewrite Z.mod_pow2_bits_high by lia. apply andb_false_r. }
  rewrite <- Z.lxor_lor by exact Hdisj.
  rewrite <- Z.add_nocarry_lxor by exact Hdisj. reflexivity.
Qed.

Lemma addr16_bytes low high :
  is_u8 low -> is_u8 high -> CPU.addr16 low high = high * 256 + low.
Proof.
  intros Hl Hh. unfold CPU.addr16. rewrite lor_shiftl_8 by exact Hl.
  apply u16_id. unfold is_u8, is_u16 in *. lia.
Qed.

(** Splitting a 16-bit value into its bytes and reassembling it:
    [((p >> 8) & 0xFF) << 8 | (p & 0xFF)] is [p]. *)
Lemma addr16_split p :
  is_u16 p ->
  CPU.addr16 (u8 (Z.land p 255)) (u8 (Z.land (Z.shiftr p 8) 255)) = p.
Proof.
  intros Hp. rewrite addr16_bytes by apply u8_range.
  rewrite !u8_land_255. unfold u8, is_u16 in *. rewrite shiftr_8.
  assert (H8 : 0 <= p / 256 < 256).
  { split; [apply Z.div_pos; lia | apply Z.div_lt_upper_bound; lia]. }
  rewrite (Z.mod_small (p / 256)) by lia.
  pose proof (Z.div_mod p 256). lia.
Qed.

Lemma byte_at_u8 (m : gmap Z Z) a :
  map_Forall (fun _ v => is_u8 v) m -> is_u8 (byte_at m a).
Proof.
  intros Hm. unfold byte_at. destruct (m !! a) as [v|] eqn:E; simpl.
  - exact (Hm a v E).
  - unfold is_u8. lia.
Qed.

Lemma byte_at_insert (m : gmap Z Z) a b v :
  byte_at (<[a := v]> m) b = if decide (a = b) then v else byte_at m b.
Proof. unfold byte_at. rewrite lookup_insert. case_decide; reflexivity. Qed.

Lemma bytes_insert (m : gmap Z Z) a v :
  is_u8 v -> map_Forall (fun _ v => is_u8 v) m ->
  map_Forall (fun _ v => is_u8 v) (<[a := v]> m).
Proof. intros Hv Hm. apply map_Forall_insert_2; assumption. Qed.

Lemma u16_add_l a b : u16 (u16 a + b) = u16 (a + b).
Proof. unfold u16. apply Z.add_mod_idemp_l. lia. Qed.

(** Successive increments of the program counter: [u16 (u16 (p + 1) + 1)]
    becomes [u16 (p + 2)], and so on. *)
Ltac pc_norm :=
  repeat (rewrite u16_add_l || rewrite <- Z.add_assoc);
  change (1 + 1) with 2; change (1 + 2) with 3.

(** ** Rules of the weakest precondition *)

Section WP.
Context {A : Type}.
Implicit Types (m : M A) (s : Machine) (Q : A -> Machine -> Prop)
  (F : Failure -> Prop).

Lemma wp_ret a s Q F : Q a s -> wp (ret a) s Q F.
Proof. exact id. Qed.

Lemma wp_fail f s Q F : F f -> wp (fail f) s Q F.
Proof. exact id. Qed.

Lemma wp_get (proj : Machine -> A) s Q F : Q (proj s) s -> wp (get proj) s Q F.
Proof. exact id. Qed.

Lemma wp_ok m s Q F a s' : wp m s Q F -> m s = Ok (a, s') -> Q a s'.
Proof. unfold wp. intros H E. rewrite E in H. exact H. Qed.

Lemma wp_failed m s Q F f : wp m s Q F -> m s = Fail f -> F f.
Proof. unfold wp. intros H E. rewrite E in H. exact H. Qed.

Lemma wp_total m s Q :
  wp m s Q (fun _ => False) -> exists a s', m s = Ok (a, s') /\ Q a s'.
Proof. unfold wp. destruct (m s) as [[a s']|f]; [eauto | tauto]. Qed.

Lemma wp_mono m s (Q Q' : A -> Machine -> Prop) (F F' : Failure -> Prop) :
  (forall a s', Q a s' -> Q' a s') -> (forall f, F f -> F' f) ->
  wp m s Q F -> wp m s Q' F'.
Proof. unfold wp. intros HQ HF. destruct (m s) as [[a s']|f]; auto. Qed.
End WP.

Lemma wp_modify f s Q F : Q tt (f s) -> wp (modify f) s Q F.
Proof. exact id. Qed.

Lemma wp_bind {A B} (m : M A) (k : A -> M B) s Q F :
  wp m s (fun a s' => wp (k a) s' Q F) F -> wp (bind m k) s Q F.
Proof. unfold wp, bind. destruct (m s) as [[a s']|f]; exact id. Qed.

Lemma wp_unit_total (m : M unit) s Q :
  wp m s Q (fun _ => False) -> exists s', m s = Ok (tt, s') /\ Q tt s'.
Proof.
  intros H. destruct (wp_total _ _ _ H) as ([] & s' & E & HQ). eauto.
Qed.

(** Projections of updated states. *)
Ltac sred :=
  cbn [regs pc sp zf running memory file cin cin_pos console bus
       set_regs set_pc set_sp set_zf set_running set_memory set_file
       set_cin_pos emit record fetched] in *.

(** One rule of the weakest precondition, chosen by the shape of the code. *)
Ltac wp1 :=
  lazymatch goal with
  | |- wp (bind _ _) _ _ _ => apply wp_bind
  | |- wp (ret _) _ _ _ => apply wp_ret
  | |- wp (fail _) _ _ _ => apply wp_fail
  | |- wp (get _) _ _ _ => apply wp_get
  | |- wp (modify _) _ _ _ => apply wp_modify
  | |- wp (if ?c then _ else _) _ _ _ => destruct c eqn:?
  | |- wp (match ?o with Some _ => _ | None => _ end) _ _ _ =>
      destruct o eqn:?
  | |- wp (RAM.read _) _ _ _ => unfold RAM.read
  | |- wp (RAM.write _ _) _ _ _ => unfold RAM.write
  | |- wp (Disk.read _) _ _ _ => unfold Disk.read
  | |- wp (Disk.write _ _) _ _ _ => unfold Disk.write
  | |- wp (CPU.reg _) _ _ _ => unfold CPU.reg
  | |- wp (CPU.set_reg _ _) _ _ _ => unfold CPU.set_reg
  | |- wp CPU.read_int _ _ _ => unfold CPU.read_int
  | |- wp CPU.fetch _ _ _ => unfold CPU.fetch
  | |- wp (CPU.push _) _ _ _ => unfold CPU.push
  | |- wp CPU.pop _ _ _ => unfold CPU.pop
  | |- wp (CPU.update_zf _) _ _ _ => unfold CPU.update_zf
  end.

Ltac wpgo := repeat (wp1; sred).

Ltac unfold_ops :=
  unfold CPU.NOP, CPU.LOAD, CPU.STORE, CPU.ADD, CPU.SUB, CPU.JMP, CPU.JZ,
    CPU.CALL, CPU.RET, CPU.IN, CPU.OUT, CPU.DISK_READ, CPU.DISK_WRITE,
    CPU.HALT, CPU.unknown.

(** ** The switch *)

Lemma dispatch_cases op n :
  (op = 0 /\ CPU.dispatch op n = CPU.NOP) \/
  (op = 1 /\ CPU.dispatch op n = CPU.LOAD n) \/
  (op = 2 /\ CPU.dispatch op n = CPU.STORE n) \/
  (op = 3 /\ CPU.dispatch op n = CPU.ADD n) \/
  (op = 4 /\ CPU.dispatch op n = CPU.SUB n) \/
  (op = 5 /\ CPU.dispatch op n = CPU.JMP) \/
  (op = 6 /\ CPU.dispatch op n = CPU.JZ) \/
  (op = 7 /\ CPU.dispatch op n = CPU.CALL) \/
  (op = 8 /\ CPU.dispatch op n = CPU.RET) \/
  (op = 9 /\ CPU.dispatch op n = CPU.IN n) \/
  (op = 10 /\ CPU.dispatch op n = CPU.OUT n) \/
  (op = 11 /\ CPU.dispatch op n = CPU.DISK_READ n) \/
  (op = 12 /\ CPU.dispatch op n = CPU.DISK_WRITE n) \/
  (op = 15 /\ CPU.dispatch op n = CPU.HALT) \/
  (~ known op /\ CPU.dispatch op n = CPU.unknown op).
Proof.
  unfold known.
  destruct op as [|p|p]; [tauto | | do 14 right; split; [lia|reflexivity]].
  do 4 (try destruct p as [p|p|]); cbn [CPU.dispatch];
  first [ do 14 right; split; [lia | reflexivity] | tauto ].
Qed.

(** Case analysis on the opcode: one goal per case of the [switch], with
    the body of the case in place of [CPU.dispatch]. *)
Ltac dispatch_split op n :=
  let E := fresh "E" in
  destruct (dispatch_cases op n) as
    [[? E]|[[? E]|[[? E]|[[? E]|[[? E]|[[? E]|[[? E]|[[? E]|[[? E]|[[? E]|
    [[? E]|[[? E]|[[? E]|[[? E]|[? E]]]]]]]]]]]]]]];
  rewrite E; clear E; unfold_ops.

(** ** The fetch *)

Lemma ltb_RAM a : a < 65536 -> (a <? RAM_SIZE) = true.
Proof. intros. apply Z.ltb_lt. unfold RAM_SIZE. lia. Qed.

Lemma ltb_DISK a : a < 65536 -> (a <? DISK_SIZE) = true.
Proof. intros. apply Z.ltb_lt. unfold DISK_SIZE. lia. Qed.

Lemma fetch_eq s :
  wf s -> CPU.fetch s = Ok (instr_at s, fetched s).
Proof.
  intros Hwf. pose proof (wf_pc s Hwf) as Hpc. unfold is_u16 in Hpc.
  unfold CPU.fetch, bind, get, modify, RAM.read. sred.
  rewrite !ltb_RAM by lia. reflexivity.
Qed.

Lemma step_eq s :
  wf s -> CPU.step s = CPU.dispatch (opcode_at s) (operand_at s) (fetched s).
Proof.
  intros Hwf. unfold CPU.step, bind. rewrite fetch_eq by exact Hwf.
  reflexivity.
Qed.

(** ** Ranges *)

Lemma reg_lookup_u8 (l : list Z) i v :
  Forall is_u8 l -> l !! i = Some v -> is_u8 v.
Proof. intros Hl E. exact (proj1 (Forall_lookup _ _) Hl i v E). Qed.

Lemma addr16_range l h : is_u16 (CPU.addr16 l h).
Proof. apply u16_range. Qed.

Lemma is_u8_u16 x : is_u8 x -> is_u16 x.
Proof. unfold is_u8, is_u16. lia. Qed.

Create HintDb vm.
#[local] Hint Resolve u8_range u16_range addr16_range byte_at_u8 bytes_insert
  reg_lookup_u8 wf_regs wf_pc wf_sp wf_memory wf_file : vm.

Ltac range_solve :=
  lazymatch goal with
  | |- 0 <= ?x < 65536 => change (is_u16 x); eauto 6 using is_u8_u16 with vm
  | |- 0 <= ?x < 256 => change (is_u8 x); eauto with vm
  end.

Lemma ram_check_u16 a : is_u16 a -> (a <? RAM_SIZE) = false -> False.
Proof.
  unfold is_u16. intros Ha E. rewrite ltb_RAM in E by lia. discriminate.
Qed.

Lemma disk_check_u16 a : is_u16 a -> (a <? DISK_SIZE) = false -> False.
Proof.
  unfold is_u16. intros Ha E. rewrite ltb_DISK in E by lia. discriminate.
Qed.

(** A bounds check of a store cannot fail on a 16-bit address. *)
Ltac check_passes :=
  match goal with
  | H : (_ <? RAM_SIZE) = false |- _ =>
      exfalso; eapply ram_check_u16; [| exact H];
      eauto 6 using is_u8_u16 with vm
  | H : (_ <? DISK_SIZE) = false |- _ =>
      exfalso; eapply disk_check_u16; [| exact H];
      eauto 6 using is_u8_u16 with vm
  end.

(** What the lookups in [regs] that the execution went through say about
    the indices. *)
Ltac reg_facts Hwf :=
  pose proof (wf_regs_len _ Hwf);
  repeat match goal with
  | H : (_ <? _)%nat = true |- _ => apply Nat.ltb_lt in H
  | H : (_ <? _)%nat = false |- _ => apply Nat.ltb_ge in H
  | H : <[?i:=?v]> ?l !! ?i = _ |- _ =>
      rewrite list_lookup_insert_eq in H by lia
  | H : _ !! _ = Some _ |- _ => apply lookup_lt_Some in H
  | H : _ !! _ = None |- _ => apply lookup_ge_None in H
  end.

(** ** The invariant *)

Ltac wf_solve :=
  lazymatch goal with
  | Hwf : wf ?s |- wf _ =>
      constructor; sred;
      [ rewrite ?length_insert; exact (wf_regs_len s Hwf)
      | try apply Forall_insert; eauto with vm
      | eauto with vm
      | eauto with vm
      | eauto 6 with vm
      | eauto 6 with vm ]
  end.

Lemma wf_fetched s : wf s -> wf (fetched s).
Proof. intros Hwf. wf_solve. Qed.

Lemma wf_set_running b s : wf s -> wf (set_running b s).
Proof. intros Hwf. wf_solve. Qed.

Lemma dispatch_wf op n s :
  wf s -> wp (CPU.dispatch op n) s (fun _ s' => wf s') (fun _ => True).
Proof.
  intros Hwf. dispatch_split op n; wpgo; try exact I; try assumption.
  all: wf_solve.
Qed.

Lemma step_wf s s' : wf s -> CPU.step s = Ok (tt, s') -> wf s'.
Proof.
  intros Hwf E. rewrite step_eq in E by exact Hwf.
  exact (wp_ok _ _ _ _ _ _ (dispatch_wf _ _ _ (wf_fetched s Hwf)) E).
Qed.

Lemma reaches_wf s s' : wf s -> reaches s s' -> wf s'.
Proof.
  intros Hwf Hr. induction Hr as [|s s1 s2 [_ E] _ IH]; [assumption|].
  apply IH. exact (step_wf _ _ Hwf E).
Qed.

Lemma power_on_wf disk input :
  map_Forall (fun _ v => is_u8 v) disk -> wf (power_on disk input).
Proof.
  intros Hdisk. constructor; cbn; try (unfold is_u8, is_u16; lia).
  - repeat constructor; unfold is_u8; lia.
  - apply map_Forall_empty.
  - exact Hdisk.
Qed.

Lemma load_program_bytes bytes base (m : gmap Z Z) :
  Forall is_u8 bytes -> map_Forall (fun _ v => is_u8 v) m ->
  map_Forall (fun _ v => is_u8 v) (load_program base bytes m).
Proof.
  revert base m. induction bytes as [|b rest IH]; intros base m Hb Hm.
  - exact Hm.
  - cbn [load_program]. apply IH.
    + exact (Forall_inv_tail Hb).
    + apply bytes_insert; [exact (Forall_inv Hb) | exact Hm].
Qed.

(** ** Failures *)

Lemma uses_operand_known op : uses_operand op = true -> known op.
Proof.
  unfold uses_operand, known. cbn [existsb].
  rewrite !orb_true_iff, !Z.eqb_eq. lia.
Qed.

Lemma uses_reg_m_known op : uses_reg_m op = true -> known op.
Proof.
  unfold uses_reg_m, known. cbn [existsb].
  rewrite !orb_true_iff, !Z.eqb_eq. lia.
Qed.

(** The only failure of a case of the [switch] is an index outside [regs],
    and it happens exactly when the low nibble, or the register byte of
    [ADD] and [SUB], exceeds 3. *)
Lemma dispatch_fail op n s :
  wf s ->
  wp (CPU.dispatch op n) s
     (fun _ _ => idx_ok op n (byte_at (memory s) (pc s)))
     (fun f => f = BadRegister /\ ~ idx_ok op n (byte_at (memory s) (pc s))).
Proof.
  intros Hwf. unfold idx_ok.
  dispatch_split op n; wpgo; try check_passes; subst;
    cbn [uses_operand uses_reg_m existsb Z.eqb orb Pos.eqb].
  all: reg_facts Hwf.
  all: try (intuition (discriminate || lia)).
  split; intros Hu;
    [apply uses_operand_known in Hu | apply uses_reg_m_known in Hu];
    contradiction.
Qed.

Lemma step_fail s :
  wf s ->
  match CPU.step s with
  | Ok _ => indices_in_range s
  | Fail f => f = BadRegister /\ ~ indices_in_range s
  end.
Proof.
  intros Hwf. rewrite step_eq by exact Hwf.
  pose proof (dispatch_fail (opcode_at s) (operand_at s) _ (wf_fetched s Hwf))
    as H.
  unfold wp in H.
  destruct (CPU.dispatch (opcode_at s) (operand_at s) (fetched s))
    as [[a s']|f]; exact H.
Qed.

(** ** The requests to the stores *)

Lemma extends_refl b : extends_ok b b.
Proof. exists []. split; [reflexivity | constructor]. Qed.

Lemma extends_cons a b b' :
  access_ok a -> extends_ok b b' -> extends_ok b (a :: b').
Proof.
  intros Ha (l & -> & Hl). exists (a :: l). split; [reflexivity|].
  constructor; assumption.
Qed.

Lemma extends_trans b1 b2 b3 :
  extends_ok b1 b2 -> extends_ok b2 b3 -> extends_ok b1 b3.
Proof.
  intros (l & -> & Hl) (l' & -> & Hl'). exists (l' ++ l).
  split; [apply app_assoc|]. apply Forall_app; split; assumption.
Qed.

Lemma dispatch_bus op n s :
  wf s ->
  wp (CPU.dispatch op n) s
     (fun _ s' => extends_ok (bus s) (bus s')) (fun _ => True).
Proof.
  intros Hwf.
  dispatch_split op n; wpgo; try exact I.
  all: repeat (apply extends_cons; [cbn [access_ok]; range_solve|]).
  all: apply extends_refl.
Qed.

Lemma step_bus s s' :
  wf s -> CPU.step s = Ok (tt, s') -> extends_ok (bus s) (bus s').
Proof.
  intros Hwf E. rewrite step_eq in E by exact Hwf.
  apply (extends_trans _ (bus (fetched s))).
  - sred. apply extends_cons; [|apply extends_refl].
    cbn [access_ok]. range_solve.
  - exact (wp_ok _ _ _ _ _ _ (dispatch_bus _ _ _ (wf_fetched s Hwf)) E).
Qed.

Lemma reaches_bus s s' :
  wf s -> reaches s s' -> extends_ok (bus s) (bus s').
Proof.
  intros Hwf Hr. induction Hr as [|s s1 s2 [_ E] _ IH]; [apply extends_refl|].
  apply (extends_trans _ (bus s1)).
  - exact (step_bus _ _ Hwf E).
  - apply IH. exact (step_wf _ _ Hwf E).
Qed.

Lemma access_ok_capacity a : access_ok a -> within_capacity a.
Proof.
  destruct a; cbn [access_ok within_capacity]; unfold RAM_SIZE, DISK_SIZE; lia.
Qed.

(** ** Executing one instruction *)

Lemma wp_step s Q F :
  wf s ->
  wp (CPU.dispatch (opcode_at s) (operand_at s)) (fetched s) Q F ->
  wp CPU.step s Q F.
Proof. intros Hwf H. unfold wp in *. rewrite step_eq by exact Hwf. exact H. Qed.

(** Start the symbolic execution of the instruction at the program
    counter, whose opcode [E] gives. *)
Ltac step_with Hwf E :=
  lazymatch goal with
  | |- exists s', ?m ?s = Ok (tt, s') /\ @?P s' =>
      let Post := fresh "Post" in
      pose (Post := P);
      apply (wp_unit_total m s (fun _ => Post))
  end;
  apply wp_step; [exact Hwf|];
  rewrite E; cbn [CPU.dispatch]; unfold_ops; wpgo; try check_passes;
  lazymatch goal with
  | Post := _ |- _ => try (unfold Post; clear Post)
  end.

Lemma target_at_bytes s :
  wf s -> target_at s = Z.lor (Z.shiftl (arg_at s 2) 8) (arg_at s 1).
Proof.
  intros Hwf. unfold target_at, CPU.addr16. apply u16_id.
  assert (is_u8 (arg_at s 1)) by (unfold arg_at; eauto with vm).
  assert (is_u8 (arg_at s 2)) by (unfold arg_at; eauto with vm).
  rewrite lor_shiftl_8 by assumption. unfold is_u8, is_u16 in *. lia.
Qed.

(** C5. JZ addr16: the program counter becomes addr16 (low byte first,
    [(high << 8) | low]) when the zero-flag is set and the address of the
    byte after the two address bytes when it is clear; registers, zero-flag
    and stack pointer (and both stores) are unchanged either way. *)
Theorem jz_transfers_iff_zero_flag s :
  wf s ->
  opcode_at s = 6 ->
  exists s',
    CPU.step s = Ok (tt, s') /\
    target_at s = Z.lor (Z.shiftl (arg_at s 2) 8) (arg_at s 1) /\
    (zf s = true -> pc s' = target_at s) /\
    (zf s = false -> pc s' = u16 (pc s + 3)) /\
    (target_at s <> u16 (pc s + 3) -> (pc s' = target_at s <-> zf s = true)) /\
    regs s' = regs s /\ zf s' = zf s /\ sp s' = sp s /\
    running s' = running s /\ memory s' = memory s /\ file s' = file s.
Proof.
  intros Hwf E.
  assert (Hpost : forall s',
    pc s' = (if zf s then target_at s else u16 (pc s + 3)) ->
    regs s' = regs s -> zf s' = zf s -> sp s' = sp s ->
    running s' = running s -> memory s' = memory s -> file s' = file s ->
    target_at s = Z.lor (Z.shiftl (arg_at s 2) 8) (arg_at s 1) /\
    (zf s = true -> pc s' = target_at s) /\
    (zf s = false -> pc s' = u16 (pc s + 3)) /\
    (target_at s <> u16 (pc s + 3) -> (pc s' = target_at s <-> zf s = true)) /\
    regs s' = regs s /\ zf s' = zf s /\ sp s' = sp s /\
    running s' = running s /\ memory s' = memory s /\ file s' = file s).
  { intros s' Hpc. pose proof (target_at_bytes s Hwf).
    rewrite Hpc. destruct (zf s); intuition congruence. }
  step_with Hwf E; apply Hpost; sred; try reflexivity; try assumption.
  - unfold target_at, arg_at. pc_norm. reflexivity.
  - pc_norm. reflexivity.
Qed.

(** ** The loop *)

Lemma loop_halted fuel s : running s = false -> CPU.loop fuel s = Ok s.
Proof. intros E. destruct fuel; cbn [CPU.loop]; rewrite E; reflexivity. Qed.

Lemma loop_step fuel s s' :
  running s = true -> CPU.step s = Ok (tt, s') ->
  CPU.loop (S fuel) s = CPU.loop fuel s'.
Proof. intros Er Es. cbn [CPU.loop]. rewrite Er, Es. reflexivity. Qed.

Lemma loop_fail fuel s f :
  running s = true -> CPU.step s = Fail f -> CPU.loop (S fuel) s = Fail f.
Proof. intros Er Es. cbn [CPU.loop]. rewrite Er, Es. reflexivity. Qed.

(** The loop of [execute] goes through the states an execution reaches. *)
Lemma reaches_loop s s' :
  reaches s s' -> exists k, forall fuel, CPU.loop (k + fuel) s = CPU.loop fuel s'.
Proof.
  induction 1 as [s | s s1 s2 [Hrun E] _ [k IH]].
  - exists 0%nat. reflexivity.
  - exists (S k). intros fuel. cbn [Nat.add].
    rewrite (loop_step _ _ _ Hrun E). apply IH.
Qed.

Lemma unknown_range s : wf s -> ~ known (opcode_at s) ->
  opcode_at s = 13 \/ opcode_at s = 14.
Proof.
  intros Hwf Hk. unfold known in Hk.
  assert (0 <= opcode_at s < 16).
  { apply opcode_range. unfold instr_at. eauto with vm. }
  lia.
Qed.

(** C3. An instruction byte whose high nibble has no case in the switch
    (13 or 14): the iteration succeeds, the opcode is reported on the
    console, the engine is halted and the loop of [execute] returns that
    state, so that an [execute] that reached the instruction returns to its
    caller; registers, zero-flag and stack pointer are those from before
    the instruction, and no failure is raised. *)
Theorem unknown_opcode_halts_cleanly s :
  wf s ->
  running s = true ->
  ~ known (opcode_at s) ->
  exists s',
    CPU.step s = Ok (tt, s') /\
    (forall fuel, CPU.loop (S fuel) s = Ok s') /\
    (forall s0, reaches (set_running true s0) s ->
       exists k, forall fuel, CPU.execute (k + fuel) s0 = Ok s') /\
    running s' = false /\
    console s' = console s ++ [UnknownOpcode (opcode_at s)] /\
    (opcode_at s = 13 \/ opcode_at s = 14) /\
    regs s' = regs s /\ zf s' = zf s /\ sp s' = sp s.
Proof.
  intros Hwf Hrun Hk.
  assert (E : CPU.step s =
    Ok (tt, set_running false (emit (UnknownOpcode (opcode_at s)) (fetched s)))).
  { rewrite step_eq by exact Hwf.
    destruct (dispatch_cases (opcode_at s) (operand_at s)) as
      [[H _]|[[H _]|[[H _]|[[H _]|[[H _]|[[H _]|[[H _]|[[H _]|[[H _]|[[H _]|
      [[H _]|[[H _]|[[H _]|[[H _]|[_ H]]]]]]]]]]]]]]];
      try (exfalso; apply Hk; unfold known; lia).
    rewrite H. reflexivity. }
  assert (Hloop : forall fuel, CPU.loop (S fuel) s =
    Ok (set_running false (emit (UnknownOpcode (opcode_at s)) (fetched s)))).
  { intros fuel. rewrite (loop_step _ _ _ Hrun E). apply loop_halted.
    reflexivity. }
  eexists. split; [exact E|]. split; [exact Hloop|].
  split; [|split; [|split; [|split]]].
  - intros s0 Hr. destruct (reaches_loop _ _ Hr) as [k Hsteps].
    exists (k + 1)%nat. intros fuel. unfold CPU.execute.
    rewrite <- Nat.add_assoc, Hsteps. apply Hloop.
  - reflexivity.
  - reflexivity.
  - exact (unknown_range s Hwf Hk).
  - repeat split.
Qed.

(** ** ADD and SUB *)

Lemma add_wraps a b :
  is_u8 a -> is_u8 b -> u8 (Z.land (u16 (a + b)) 255) = (a + b) mod 256.
Proof.
  unfold is_u8. intros Ha Hb. rewrite u8_land_255.
  rewrite u16_id by (unfold is_u16; lia). reflexivity.
Qed.

Lemma sub_wraps a b :
  is_u8 a -> is_u8 b -> u8 (Z.land (i16 (a - b)) 255) = (a - b) mod 256.
Proof.
  unfold is_u8. intros Ha Hb. rewrite u8_land_255.
  unfold i16. rewrite Z.mod_small by lia.
  unfold u8. f_equal. lia.
Qed.

Lemma reg_at_insert s i v :
  wf s -> is_Some (reg_at s i) ->
  <[Z.to_nat i := v]> (regs s) !! Z.to_nat i = Some v.
Proof.
  unfold reg_at. intros Hwf [x Hx]. apply list_lookup_insert_eq.
  exact (lookup_lt_Some _ _ _ Hx).
Qed.

(** C2. ADD n,m and SUB n,m with registers n and m (both in 0..3) holding
    a and b: register n becomes (a + b) mod 256, respectively
    (a - b) mod 256, and the zero-flag says whether register n is 0
    afterwards. The 16-bit intermediate holds a + b, respectively a - b,
    exactly; the wrap-around comes from the truncation to 8 bits. *)
Theorem add_sub_wrap_mod_256 s a b :
  wf s ->
  reg_at s (operand_at s) = Some a ->
  reg_at s (arg_at s 1) = Some b ->
  (opcode_at s = 3 ->
   exists s', CPU.step s = Ok (tt, s') /\
     reg_at s' (operand_at s) = Some ((a + b) mod 256) /\
     zf s' = ((a + b) mod 256 =? 0)) /\
  (opcode_at s = 4 ->
   exists s', CPU.step s = Ok (tt, s') /\
     reg_at s' (operand_at s) = Some ((a - b) mod 256) /\
     zf s' = ((a - b) mod 256 =? 0)) /\
  u16 (a + b) = a + b /\ i16 (a - b) = a - b /\
  0 <= operand_at s <= 3 /\ 0 <= arg_at s 1 <= 3.
Proof.
  intros Hwf Ha Hb.
  assert (Hia : is_u8 a) by (unfold reg_at in Ha; eauto with vm).
  assert (Hib : is_u8 b) by (unfold reg_at in Hb; eauto with vm).
  assert (Hexact : u16 (a + b) = a + b /\ i16 (a - b) = a - b).
  { split; [apply u16_id; unfold is_u8, is_u16 in *; lia|].
    unfold i16, is_u8 in *. rewrite Z.mod_small by lia. lia. }
  assert (Hidx : 0 <= operand_at s <= 3 /\ 0 <= arg_at s 1 <= 3).
  { pose proof (wf_regs_len s Hwf) as Hlen.
    pose proof (operand_range (instr_at s)) as Hn.
    assert (Hm : is_u8 (arg_at s 1)) by (unfold arg_at; eauto with vm).
    pose proof (lookup_lt_Some _ _ _ Ha). pose proof (lookup_lt_Some _ _ _ Hb).
    unfold is_u8, operand_at in *. lia. }
  enough (Hmain :
    (opcode_at s = 3 ->
     exists s', CPU.step s = Ok (tt, s') /\
       reg_at s' (operand_at s) = Some ((a + b) mod 256) /\
       zf s' = ((a + b) mod 256 =? 0)) /\
    (opcode_at s = 4 ->
     exists s', CPU.step s = Ok (tt, s') /\
       reg_at s' (operand_at s) = Some ((a - b) mod 256) /\
       zf s' = ((a - b) mod 256 =? 0))) by tauto.
  clear Hexact Hidx.
  assert (Hlen : (Z.to_nat (operand_at s) <? length (regs s))%nat = true).
  { apply Nat.ltb_lt. exact (lookup_lt_Some _ _ _ Ha). }
  unfold reg_at, arg_at in *.
  split; intros E; step_with Hwf E; unfold reg_at; sred;
    try congruence;
    repeat match goal with
    | H : <[_:=_]> _ !! _ = _ |- _ =>
        rewrite list_lookup_insert_eq in H
          by (apply Nat.ltb_lt; assumption)
    end; simplify_eq.
  - rewrite list_lookup_insert_eq by (apply Nat.ltb_lt; assumption).
    rewrite add_wraps by assumption. split; reflexivity.
  - rewrite list_lookup_insert_eq by (apply Nat.ltb_lt; assumption).
    rewrite sub_wraps by assumption. split; reflexivity.
Qed.

(** ** The stack *)

Lemma u8_pred_succ p : is_u8 p -> u8 (u8 (p - 1) + 1) = p.
Proof. unfold is_u8, u8. intros. Z.div_mod_to_equations. lia. Qed.

Lemma u8_succ_pred p : is_u8 p -> u8 (u8 (p + 1) - 1) = p.
Proof. unfold is_u8, u8. intros. Z.div_mod_to_equations. lia. Qed.

Lemma u8_pred_ne p : is_u8 p -> u8 (p - 1) <> p.
Proof. unfold is_u8, u8. intros. Z.div_mod_to_equations. lia. Qed.

Lemma push_eq val s :
  wf s ->
  CPU.push val s =
  Ok (tt, set_memory (<[sp s := val]> (memory s))
            (record (RamWrite (sp s)) (set_sp (u8 (sp s - 1)) s))).
Proof.
  intros Hwf. pose proof (wf_sp s Hwf) as Hsp. unfold is_u8 in Hsp.
  unfold CPU.push, bind, get, modify, RAM.write. sred.
  rewrite ltb_RAM by lia. reflexivity.
Qed.

Lemma pop_eq s :
  CPU.pop s =
  Ok (byte_at (memory s) (u8 (sp s + 1)),
      record (RamRead (u8 (sp s + 1))) (set_sp (u8 (sp s + 1)) s)).
Proof.
  pose proof (u8_range (sp s + 1)) as Hsp. unfold is_u8 in Hsp.
  unfold CPU.pop, bind, get, modify, RAM.read. sred.
  rewrite ltb_RAM by lia. reflexivity.
Qed.

Lemma reaches_sp s s' : wf s -> reaches s s' -> is_u8 (sp s').
Proof. intros Hwf Hr. exact (wf_sp _ (reaches_wf _ _ Hwf Hr)). Qed.

(** C6. The stack pointer is an 8-bit value throughout every execution; a
    push writes at the stack pointer, an address below 256, and then
    decrements it modulo 256; a pop increments it modulo 256 and then reads
    at the new value, again below 256. So a push at 0 leaves 255, a pop at
    255 leaves 0, and from the initial 255 a push leaves 254 and the
    matching pop returns to 255 (and returns the byte pushed). *)
Theorem stack_pointer_wraps_mod_256 s :
  wf s ->
  (forall s', reaches s s' -> 0 <= sp s' < 256) /\
  (forall val, exists s1,
     CPU.push val s = Ok (tt, s1) /\
     sp s1 = (sp s - 1) mod 256 /\
     bus s1 = RamWrite (sp s) :: bus s /\ 0 <= sp s < 256 /\
     memory s1 = <[sp s := val]> (memory s) /\
     (sp s = 0 -> sp s1 = 255) /\
     (sp s = 255 -> sp s1 = 254) /\
     exists s2,
       CPU.pop s1 = Ok (val, s2) /\ sp s2 = sp s) /\
  (exists v s1,
     CPU.pop s = Ok (v, s1) /\
     sp s1 = (sp s + 1) mod 256 /\
     bus s1 = RamRead (sp s1) :: bus s /\ 0 <= sp s1 < 256 /\
     v = byte_at (memory s) (sp s1) /\
     (sp s = 255 -> sp s1 = 0)) /\
  (forall disk input, sp (power_on disk input) = 255).
Proof.
  intros Hwf. pose proof (wf_sp s Hwf) as Hsp.
  split; [|split; [|split]].
  - intros s' Hr. exact (reaches_sp s s' Hwf Hr).
  - intros val. eexists. split; [exact (push_eq val s Hwf)|]. sred.
    split; [reflexivity|]. split; [reflexivity|]. split; [exact Hsp|].
    split; [reflexivity|].
    split; [intros ->; reflexivity|]. split; [intros ->; reflexivity|].
    eexists. rewrite pop_eq. sred. rewrite u8_pred_succ by exact Hsp.
    rewrite byte_at_insert. rewrite decide_True by reflexivity.
    split; reflexivity.
  - eexists _, _. split; [exact (pop_eq s)|]. sred.
    split; [reflexivity|]. split; [reflexivity|].
    split; [exact (u8_range _)|]. split; [reflexivity|].
    intros ->. reflexivity.
  - reflexivity.
Qed.

(** ** CALL and RET *)

Lemma call_eq s :
  wf s -> opcode_at s = 7 ->
  exists s',
    CPU.step s = Ok (tt, s') /\
    pc s' = target_at s /\
    sp s' = u8 (u8 (sp s - 1) - 1) /\
    memory s' =
      <[u8 (sp s - 1) := u8 (Z.land (u16 (pc s + 3)) 255)]>
        (<[sp s := u8 (Z.land (Z.shiftr (u16 (pc s + 3)) 8) 255)]> (memory s)) /\
    regs s' = regs s /\ zf s' = zf s /\ running s' = running s.
Proof.
  intros Hwf E. step_with Hwf E. pc_norm.
  repeat split; reflexivity.
Qed.

Lemma ret_eq s :
  wf s -> opcode_at s = 8 ->
  exists s',
    CPU.step s = Ok (tt, s') /\
    pc s' = CPU.addr16 (byte_at (memory s) (u8 (sp s + 1)))
                       (byte_at (memory s) (u8 (u8 (sp s + 1) + 1))) /\
    sp s' = u8 (u8 (sp s + 1) + 1) /\
    regs s' = regs s /\ zf s' = zf s /\ running s' = running s.
Proof.
  intros Hwf E. step_with Hwf E.
  repeat split; reflexivity.
Qed.

(** C1. CALL addr16 followed by the RET at addr16: the CALL succeeds and
    sets the program counter to addr16; if the byte found there decodes to
    RET, executing it puts the program counter back to the address after
    the three bytes of the CALL, and the stack pointer back to its value
    before the CALL. The byte at addr16 is the one from before the CALL
    unless addr16 is one of the two stack slots the CALL writes. *)
Theorem call_then_ret_restores s :
  wf s ->
  opcode_at s = 7 ->
  exists s1,
    CPU.step s = Ok (tt, s1) /\
    pc s1 = target_at s /\
    (target_at s <> sp s -> target_at s <> u8 (sp s - 1) ->
     instr_at s1 = byte_at (memory s) (target_at s)) /\
    (opcode_at s1 = 8 ->
     exists s2,
       CPU.step s1 = Ok (tt, s2) /\
       pc s2 = u16 (pc s + 3) /\
       sp s2 = sp s).
Proof.
  intros Hwf E.
  destruct (call_eq s Hwf E) as (s1 & E1 & Hpc1 & Hsp1 & Hmem1 & _).
  exists s1. split; [exact E1|]. split; [exact Hpc1|].
  split.
  { intros Hne1 Hne2. unfold instr_at. rewrite Hpc1, Hmem1.
    rewrite !byte_at_insert, !decide_False by congruence. reflexivity. }
  intros Eret.
  pose proof (step_wf _ _ Hwf E1) as Hwf1.
  pose proof (wf_sp s Hwf) as Hsp.
  destruct (ret_eq s1 Hwf1 Eret) as (s2 & E2 & Hpc2 & Hsp2 & _).
  exists s2. split; [exact E2|].
  assert (Hlow : u8 (sp s1 + 1) = u8 (sp s - 1)).
  { rewrite Hsp1. apply u8_pred_succ. apply u8_range. }
  assert (Hhigh : u8 (u8 (sp s1 + 1) + 1) = sp s).
  { rewrite Hlow. apply u8_pred_succ. exact Hsp. }
  split.
  - rewrite Hpc2, Hhigh, Hlow, Hmem1.
    rewrite !byte_at_insert.
    rewrite (decide_True (P := u8 (sp s - 1) = u8 (sp s - 1))) by reflexivity.
    rewrite (decide_False (P := u8 (sp s - 1) = sp s))
      by (apply u8_pred_ne; exact Hsp).
    rewrite (decide_True (P := sp s = sp s)) by reflexivity.
    apply addr16_split. apply u16_range.
  - rewrite Hsp2. exact Hhigh.
Qed.

(** ** The zero-flag *)

Lemma sets_zf_known op : sets_zf op = true -> known op.
Proof.
  unfold sets_zf, known. cbn [existsb].
  rewrite !orb_true_iff, !Z.eqb_eq. lia.
Qed.

Lemma dispatch_zf op n s :
  wf s ->
  wp (CPU.dispatch op n) s
     (fun _ s' =>
        if sets_zf op
        then exists r, regs s' !! Z.to_nat n = Some r /\ zf s' = (r =? 0)
        else zf s' = zf s)
     (fun _ => True).
Proof.
  intros Hwf.
  dispatch_split op n; wpgo; try exact I;
    try (subst op; cbn [sets_zf existsb Z.eqb orb Pos.eqb]; solve [eauto]).
  destruct (sets_zf op) eqn:Ez; [|reflexivity].
  apply sets_zf_known in Ez. contradiction.
Qed.

(** C4. After an instruction that executed: for LOAD, ADD, SUB, IN and
    DISK_READ the zero-flag says whether the register the instruction wrote
    is 0; for every other opcode (STORE, OUT, DISK_WRITE, JMP, JZ, CALL,
    RET, NOP, HALT, and the unknown ones) the zero-flag is the one from
    before the instruction. *)
Theorem zero_flag_tracks_written_register s s' :
  wf s ->
  CPU.step s = Ok (tt, s') ->
  (opcode_at s ∈ [1; 3; 4; 9; 11] ->
   exists r, reg_at s' (operand_at s) = Some r /\ zf s' = (r =? 0)) /\
  (opcode_at s ∈ [2; 10; 12; 5; 6; 7; 8; 0; 15] -> zf s' = zf s) /\
  (opcode_at s ∉ [1; 3; 4; 9; 11] -> zf s' = zf s).
Proof.
  intros Hwf E. rewrite step_eq in E by exact Hwf.
  pose proof (wp_ok _ _ _ _ _ _
    (dispatch_zf (opcode_at s) (operand_at s) _ (wf_fetched s Hwf)) E) as H.
  cbn beta in H. sred.
  assert (Hin : sets_zf (opcode_at s) = true <-> opcode_at s ∈ [1; 3; 4; 9; 11]).
  { unfold sets_zf. cbn [existsb].
    rewrite !orb_true_iff, !Z.eqb_eq, !elem_of_cons, elem_of_nil.
    intuition discriminate. }
  destruct (sets_zf (opcode_at s)) eqn:Ez.
  - assert (Hm : opcode_at s ∈ [1; 3; 4; 9; 11]) by (apply Hin; reflexivity).
    split; [intros _; exact H|]. split.
    + intros Hother. exfalso. revert Hm Hother.
      rewrite !elem_of_cons, !elem_of_nil. lia.
    + intros Hn. contradiction.
  - split; [|split]; [|intros _; exact H|intros _; exact H].
    intros Hm. apply Hin in Hm. discriminate.
Qed.

(** ** Register indices *)

Lemma reg_fails_iff i s :
  wf s -> 0 <= i -> (CPU.reg i s = Fail BadRegister <-> 3 < i).
Proof.
  intros Hwf Hi. pose proof (wf_regs_len s Hwf) as Hlen.
  unfold CPU.reg, bind, get.
  destruct (regs s !! Z.to_nat i) as [v|] eqn:E.
  - apply lookup_lt_Some in E. split; [discriminate | lia].
  - apply lookup_ge_None in E. split; [lia | reflexivity].
Qed.

Lemma set_reg_fails_iff i v s :
  wf s -> 0 <= i -> (CPU.set_reg i v s = Fail BadRegister <-> 3 < i).
Proof.
  intros Hwf Hi. pose proof (wf_regs_len s Hwf) as Hlen.
  unfold CPU.set_reg, bind, get.
  destruct (Nat.ltb_spec (Z.to_nat i) (length (regs s))).
  - split; [discriminate | lia].
  - split; [lia | reflexivity].
Qed.

Lemma step_bad_register_iff s :
  wf s -> (CPU.step s <> Fail BadRegister <-> indices_in_range s).
Proof.
  intros Hwf. pose proof (step_fail s Hwf) as H.
  destruct (CPU.step s) as [r|f].
  - split; [intros _; exact H | discriminate].
  - destruct H as [-> Hn]. split; [congruence | contradiction].
Qed.

(** C9. The register file has 4 entries and an access to it is not
    checked: [regs[i]] is out of bounds exactly when [i] exceeds 3. The
    instruction at the program counter therefore stays inside the register
    file if and only if its low nibble, when the opcode is LOAD, STORE, ADD,
    SUB, IN, OUT, DISK_READ or DISK_WRITE, and the whole byte that follows,
    when the opcode is ADD or SUB, are at most 3; and so does an execution,
    if and only if that holds of every instruction it executes. *)
Theorem register_accesses_in_bounds_iff s :
  wf s ->
  length (regs s) = 4%nat /\
  (forall i, 0 <= i ->
     (CPU.reg i s = Fail BadRegister <-> 3 < i) /\
     (forall v, CPU.set_reg i v s = Fail BadRegister <-> 3 < i)) /\
  (CPU.step s <> Fail BadRegister <-> indices_in_range s) /\
  ((forall s', reaches s s' -> running s' = true ->
      CPU.step s' <> Fail BadRegister) <->
   (forall s', reaches s s' -> running s' = true -> indices_in_range s')).
Proof.
  intros Hwf. split; [exact (wf_regs_len s Hwf)|]. split; [|split].
  - intros i Hi. split; [exact (reg_fails_iff i s Hwf Hi)|].
    intros v. exact (set_reg_fails_iff i v s Hwf Hi).
  - exact (step_bad_register_iff s Hwf).
  - split; intros H s' Hr Hrun;
      apply (step_bad_register_iff s' (reaches_wf _ _ Hwf Hr));
      exact (H s' Hr Hrun).
Qed.

(** ** Bounds checks *)

Lemma step_in_bounds s : wf s -> CPU.step s <> Fail OutOfBounds.
Proof.
  intros Hwf E. pose proof (step_fail s Hwf) as H. rewrite E in H.
  destruct H as [H _]. discriminate.
Qed.

Lemma loop_in_bounds fuel s : wf s -> CPU.loop fuel s <> Fail OutOfBounds.
Proof.
  revert s. induction fuel as [|fuel IH]; intros s Hwf; cbn [CPU.loop].
  - destruct (running s); discriminate.
  - destruct (running s); [|discriminate].
    destruct (CPU.step s) as [[[] s']|f] eqn:E.
    + apply IH. exact (step_wf _ _ Hwf E).
    + intros [= ->]. exact (step_in_bounds s Hwf E).
Qed.

(** C10. Whatever the program, the input and the state: every address the
    engine hands to the memory store during an execution is a 16-bit value
    (below 256 for every write, that is for STORE and for pushes, and for
    the read of a pop), every
    address it hands to the disk is a 16-bit value, both capacities (20 MiB
    and 100 MiB) are above 65536, and so neither an iteration nor
    [execute] ever fails a bounds check. *)
Theorem store_addresses_below_capacity s :
  wf s ->
  RAM_SIZE = 20 * 2 ^ 20 /\ DISK_SIZE = 100 * 2 ^ 20 /\
  (forall s', reaches s s' ->
     exists l, bus s' = l ++ bus s /\
       Forall access_ok l /\ Forall within_capacity l) /\
  (forall s', reaches s s' ->
     exists v s1, CPU.pop s' = Ok (v, s1) /\
       bus s1 = RamRead (sp s1) :: bus s' /\ 0 <= sp s1 < 256) /\
  (forall s', reaches s s' -> CPU.step s' <> Fail OutOfBounds) /\
  (forall fuel, CPU.execute fuel s <> Fail OutOfBounds).
Proof.
  intros Hwf. split; [reflexivity|]. split; [reflexivity|].
  split; [|split; [|split]].
  - intros s' Hr. destruct (reaches_bus s s' Hwf Hr) as (l & E & Hl).
    exists l. split; [exact E|]. split; [exact Hl|].
    eapply Forall_impl; [exact Hl|]. exact access_ok_capacity.
  - intros s' _. eexists _, _. split; [exact (pop_eq s')|]. sred.
    split; [reflexivity | exact (u8_range _)].
  - intros s' Hr. exact (step_in_bounds s' (reaches_wf _ _ Hwf Hr)).
  - intros fuel. unfold CPU.execute. apply loop_in_bounds.
    exact (wf_set_running true s Hwf).
Qed.

(** ** The disk *)

Lemma dispatch_file op n s :
  wf s ->
  wp (CPU.dispatch op n) s
     (fun _ s' =>
        file s' = file s \/
        (op = 12 /\ exists r,
           file s' =
             <[CPU.addr16 (byte_at (memory s) (pc s))
                          (byte_at (memory s) (u16 (pc s + 1))) := r]>
               (file s)))
     (fun _ => True).
Proof.
  intros Hwf.
  dispatch_split op n; wpgo; try exact I; try (left; reflexivity).
  right. split; [assumption|]. eexists. reflexivity.
Qed.

Lemma step_file_frame a s s' :
  wf s -> CPU.step s = Ok (tt, s') -> ~ writes_disk_at a s ->
  byte_at (file s') a = byte_at (file s) a.
Proof.
  intros Hwf E Hn. rewrite step_eq in E by exact Hwf.
  pose proof (wp_ok _ _ _ _ _ _
    (dispatch_file (opcode_at s) (operand_at s) _ (wf_fetched s Hwf)) E) as H.
  cbn beta in H. sred. destruct H as [-> | (Hop & r & ->)]; [reflexivity|].
  rewrite byte_at_insert. rewrite decide_False; [reflexivity|].
  intros Ha. apply Hn. split; [exact Hop|].
  rewrite <- Ha. unfold target_at, arg_at. pc_norm. reflexivity.
Qed.

Lemma undisturbed_keeps a s s' :
  undisturbed a s s' -> wf s ->
  wf s' /\ byte_at (file s') a = byte_at (file s) a.
Proof.
  induction 1 as [s | s s1 s2 Hn E _ IH | s s1 s2 Hwf1 Ef _ IH]; intros Hwf.
  - split; [assumption | reflexivity].
  - destruct (IH (step_wf _ _ Hwf E)) as [Hwf2 Hb]. split; [exact Hwf2|].
    rewrite Hb. exact (step_file_frame a s s1 Hwf E Hn).
  - destruct (IH Hwf1) as [Hwf2 Hb]. split; [exact Hwf2|].
    rewrite Hb, Ef. reflexivity.
Qed.

Lemma disk_write_eq s v :
  wf s -> opcode_at s = 12 -> reg_at s (operand_at s) = Some v ->
  exists s', CPU.step s = Ok (tt, s') /\
    file s' = <[target_at s := v]> (file s) /\
    regs s' = regs s /\ zf s' = zf s.
Proof.
  intros Hwf E Hv. unfold reg_at in Hv.
  step_with Hwf E; [|congruence].
  unfold target_at, arg_at. pc_norm. simplify_eq. repeat split.
Qed.

Lemma disk_read_eq s :
  wf s -> opcode_at s = 11 -> operand_at s <= 3 ->
  exists s', CPU.step s = Ok (tt, s') /\
    reg_at s' (operand_at s) = Some (byte_at (file s) (target_at s)) /\
    zf s' = (byte_at (file s) (target_at s) =? 0).
Proof.
  intros Hwf E Hn. pose proof (wf_regs_len s Hwf) as Hlen.
  step_with Hwf E; reg_facts Hwf; try lia; try discriminate.
  simplify_eq. unfold reg_at, target_at, arg_at. sred. pc_norm.
  split; [|reflexivity].
  apply list_lookup_insert_eq. lia.
Qed.

(** C7. DISK_WRITE n,a with register n holding v, later DISK_READ m,a:
    whatever the engine executes in between other than a DISK_WRITE to a,
    and however often the host starts over in between (a new [execute], or
    a new process with a fresh CPU and RAM over the same disk file), the
    DISK_READ loads v into register m. *)
Theorem disk_write_then_read_round_trip s0 v :
  wf s0 ->
  opcode_at s0 = 12 ->
  reg_at s0 (operand_at s0) = Some v ->
  exists s1,
    CPU.step s0 = Ok (tt, s1) /\
    forall s2,
      undisturbed (target_at s0) s1 s2 ->
      opcode_at s2 = 11 ->
      target_at s2 = target_at s0 ->
      operand_at s2 <= 3 ->
      exists s3,
        CPU.step s2 = Ok (tt, s3) /\
        reg_at s3 (operand_at s2) = Some v /\
        zf s3 = (v =? 0).
Proof.
  intros Hwf0 Ew Hv.
  destruct (disk_write_eq s0 v Hwf0 Ew Hv) as (s1 & E1 & Hfile & _).
  exists s1. split; [exact E1|].
  intros s2 Hund Er Ha Hm.
  destruct (undisturbed_keeps _ _ _ Hund (step_wf _ _ Hwf0 E1)) as [Hwf2 Hb].
  destruct (disk_read_eq s2 Hwf2 Er Hm) as (s3 & E3 & Hreg & Hzf).
  exists s3. split; [exact E3|].
  assert (Hval : byte_at (file s2) (target_at s2) = v).
  { rewrite Ha, Hb, Hfile, byte_at_insert. apply decide_True. reflexivity. }
  rewrite Hval in Hreg, Hzf. split; assumption.
Qed.

(** ** Well-formedness by computation *)

Lemma is_u8b_spec x : is_u8b x = true -> is_u8 x.
Proof. unfold is_u8b, is_u8. rewrite andb_true_iff. lia. Qed.

Lemma is_u16b_spec x : is_u16b x = true -> is_u16 x.
Proof. unfold is_u16b, is_u16. rewrite andb_true_iff. lia. Qed.

Lemma bytesb_spec (m : gmap Z Z) :
  bytesb m = true -> map_Forall (fun _ v => is_u8 v) m.
Proof.
  unfold bytesb. rewrite forallb_forall. intros H k v E.
  apply is_u8b_spec. apply (H (k, v)).
  apply list_elem_of_In. apply elem_of_map_to_list. exact E.
Qed.

Lemma wfb_wf s : wfb s = true -> wf s.
Proof.
  unfold wfb. rewrite !andb_true_iff.
  intros (((((Hlen & Hregs) & Hpc) & Hsp) & Hmem) & Hfile).
  constructor.
  - apply Nat.eqb_eq. exact Hlen.
  - apply Forall_forall. intros x Hx. apply is_u8b_spec.
    rewrite forallb_forall in Hregs. apply Hregs.
    apply list_elem_of_In. exact Hx.
  - apply is_u16b_spec. exact Hpc.
  - apply is_u8b_spec. exact Hsp.
  - apply bytesb_spec. exact Hmem.
  - apply bytesb_spec. exact Hfile.
Defined.

(** ** The scenario of C8 *)

Lemma scenario_first :
  exists s1,
    CPU.step (set_running true (boot scenario)) = Ok (tt, s1) /\
    reg_at s1 0 = Some 5 /\ zf s1 = false /\ running s1 = true /\
    pc s1 = 2 /\ opcode_at s1 = 1 /\ operand_at s1 = 15 /\
    CPU.step s1 = Fail BadRegister.
Proof.
  eexists. split; [vm_compute; reflexivity|].
  repeat split; vm_compute; reflexivity.
Qed.

Lemma scenario_fails fuel :
  CPU.execute (2 + fuel) (boot scenario) = Fail BadRegister.
Proof.
  destruct scenario_first as (s1 & E1 & _ & _ & Hrun & _ & _ & _ & E2).
  unfold CPU.execute. change (2 + fuel)%nat with (S (S fuel)).
  rewrite (loop_step _ (set_running true (boot scenario)) _ eq_refl E1).
  exact (loop_fail _ _ _ Hrun E2).
Qed.

Lemma scenario_halting_runs fuel :
  exists s',
    CPU.execute (2 + fuel) (boot scenario_halting) = Ok s' /\
    reg_at s' 0 = Some 5 /\ zf s' = false /\ running s' = false.
Proof.
  assert (H : exists s1 s2,
    CPU.step (set_running true (boot scenario_halting)) = Ok (tt, s1) /\
    running s1 = true /\ CPU.step s1 = Ok (tt, s2) /\
    reg_at s2 0 = Some 5 /\ zf s2 = false /\ running s2 = false).
  { eexists _, _. split; [vm_compute; reflexivity|].
    split; [vm_compute; reflexivity|].
    split; [vm_compute; reflexivity|].
    repeat split; vm_compute; reflexivity. }
  destruct H as (s1 & s2 & E1 & Hrun & E2 & Hr & Hz & Hh).
  exists s2. split; [|auto].
  unfold CPU.execute. change (2 + fuel)%nat with (S (S fuel)).
  rewrite (loop_step _ (set_running true (boot scenario_halting)) _ eq_refl E1).
  rewrite (loop_step _ _ _ Hrun E2).
  exact (loop_halted _ _ Hh).
Qed.

(** C8, as the specification states it, fails: on the bytes
    0x10 0x05 0x1F 0x00 the engine never returns from [execute] with
    R0 = 5 and the zero-flag clear. *)
Lemma scenario_does_not_halt :
  ~ exists fuel s',
      CPU.execute fuel (boot scenario) = Ok s' /\
      reg_at s' 0 = Some 5 /\ zf s' = false /\ running s' = false.
Proof.
  intros (fuel & s' & E & _).
  destruct fuel as [|[|fuel]].
  - vm_compute in E. discriminate.
  - vm_compute in E. discriminate.
  - change (S (S fuel)) with (2 + fuel)%nat in E.
    rewrite scenario_fails in E. discriminate.
Qed.

(** C8, amended. On the bytes 0x10 0x05 0x1F 0x00 the first instruction,
    LOAD R0,5, leaves R0 = 5 and the zero-flag clear with the engine still
    running; the byte 0x1F is not a HALT but a LOAD whose register index is
    15, outside the register file, and [execute] stops there without
    reaching the halted state. On the bytes 0x10 0x05 0xF0 (LOAD R0,5;
    HALT) [execute] returns with R0 = 5, the zero-flag clear and the engine
    halted. *)
Theorem scenario_load_then_register_15 :
  (exists s1,
     CPU.step (set_running true (boot scenario)) = Ok (tt, s1) /\
     reg_at s1 0 = Some 5 /\ zf s1 = false /\ running s1 = true /\
     pc s1 = 2 /\ opcode_at s1 = 1 /\ operand_at s1 = 15 /\
     CPU.step s1 = Fail BadRegister) /\
  (forall fuel, CPU.execute (2 + fuel) (boot scenario) = Fail BadRegister) /\
  (forall fuel, exists s',
     CPU.execute (2 + fuel) (boot scenario_halting) = Ok s' /\
     reg_at s' 0 = Some 5 /\ zf s' = false /\ running s' = false).
Proof.
  split; [exact scenario_first|].
  split; [exact scenario_fails | exact scenario_halting_runs].
Qed.

(** ** The theorems at sample states *)

Ltac by_computation := vm_compute; reflexivity.

Lemma call_then_ret_sample :
  wf call_sample /\ opcode_at call_sample = 7 /\
  exists s1 s2,
    CPU.step call_sample = Ok (tt, s1) /\ opcode_at s1 = 8 /\
    CPU.step s1 = Ok (tt, s2) /\ pc s2 = 3 /\ sp s2 = 255.
Proof.
  assert (Hwf : wf call_sample) by (apply wfb_wf; by_computation).
  assert (Hop : opcode_at call_sample = 7) by by_computation.
  split; [exact Hwf|]. split; [exact Hop|].
  destruct (call_then_ret_restores call_sample Hwf Hop)
    as (s1 & E1 & _ & _ & Hret).
  assert (Hop1 : opcode_at s1 = 8).
  { vm_compute in E1. injection E1 as <-. by_computation. }
  destruct (Hret Hop1) as (s2 & E2 & Hpc2 & Hsp2).
  exists s1, s2. repeat split; assumption.
Defined.

Lemma add_sub_sample :
  (exists s', CPU.step add_sample = Ok (tt, s') /\
     reg_at s' 0 = Some 44 /\ zf s' = false) /\
  (exists s', CPU.step sub_sample = Ok (tt, s') /\
     reg_at s' 0 = Some 156 /\ zf s' = false).
Proof.
  split.
  - apply (proj1 (add_sub_wrap_mod_256 add_sample 200 100
      ltac:(apply wfb_wf; by_computation) ltac:(by_computation)
      ltac:(by_computation))).
    by_computation.
  - apply (proj2 (add_sub_wrap_mod_256 sub_sample 100 200
      ltac:(apply wfb_wf; by_computation) ltac:(by_computation)
      ltac:(by_computation))).
    by_computation.
Defined.

Lemma unknown_opcode_sample :
  wf unknown_sample /\ running unknown_sample = true /\
  ~ known (opcode_at unknown_sample) /\
  exists s',
    CPU.step unknown_sample = Ok (tt, s') /\
    (forall fuel, CPU.loop (S fuel) unknown_sample = Ok s') /\
    running s' = false /\
    console s' = [UnknownOpcode 13] /\
    regs s' = [0; 0; 0; 0] /\ zf s' = false /\ sp s' = 255.
Proof.
  assert (Hwf : wf unknown_sample) by (apply wfb_wf; by_computation).
  assert (Hrun : running unknown_sample = true) by reflexivity.
  assert (Hk : ~ known (opcode_at unknown_sample)).
  { change (opcode_at unknown_sample) with 13. unfold known. lia. }
  split; [exact Hwf|]. split; [exact Hrun|]. split; [exact Hk|].
  destruct (unknown_opcode_halts_cleanly unknown_sample Hwf Hrun Hk)
    as (s' & E & Hloop & _ & Hhalt & Hcon & _ & Hregs & Hzf & Hsp).
  exists s'. repeat split; assumption.
Defined.

Lemma zero_flag_sample :
  wf load_sample /\
  exists s',
    CPU.step load_sample = Ok (tt, s') /\
    exists r, reg_at s' 1 = Some r /\ zf s' = (r =? 0).
Proof.
  assert (Hwf : wf load_sample) by (apply wfb_wf; by_computation).
  split; [exact Hwf|].
  assert (E : exists s', CPU.step load_sample = Ok (tt, s')).
  { eexists. by_computation. }
  destruct E as [s' E]. exists s'. split; [exact E|].
  apply (proj1 (zero_flag_tracks_written_register load_sample s' Hwf E)).
  change (opcode_at load_sample) with 1. apply list_elem_of_here.
Defined.

Lemma jz_sample_jumps :
  wf jz_sample /\ opcode_at jz_sample = 6 /\
  exists s', CPU.step jz_sample = Ok (tt, s') /\ pc s' = 0x1234.
Proof.
  assert (Hwf : wf jz_sample) by (apply wfb_wf; by_computation).
  assert (Hop : opcode_at jz_sample = 6) by by_computation.
  split; [exact Hwf|]. split; [exact Hop|].
  destruct (jz_transfers_iff_zero_flag jz_sample Hwf Hop)
    as (s' & E & _ & Hjump & _).
  exists s'. split; [exact E|].
  rewrite (Hjump eq_refl). by_computation.
Defined.

Lemma stack_pointer_sample :
  wf (boot []) /\
  exists s1 s2,
    CPU.push 7 (boot []) = Ok (tt, s1) /\ sp s1 = 254 /\
    CPU.pop s1 = Ok (7, s2) /\ sp s2 = 255.
Proof.
  assert (Hwf : wf (boot [])) by (apply wfb_wf; by_computation).
  split; [exact Hwf|].
  destruct (stack_pointer_wraps_mod_256 (boot []) Hwf)
    as (_ & Hpush & _).
  destruct (Hpush 7) as (s1 & E1 & _ & _ & _ & _ & _ & H254 & s2 & E2 & Hsp).
  exists s1, s2. split; [exact E1|]. split; [exact (H254 eq_refl)|].
  split; [exact E2 | exact Hsp].
Defined.

Lemma disk_round_trip_sample :
  wf disk_write_sample /\ opcode_at disk_write_sample = 12 /\
  reg_at disk_write_sample (operand_at disk_write_sample) = Some 42 /\
  exists s1 s3,
    CPU.step disk_write_sample = Ok (tt, s1) /\
    CPU.step (disk_read_sample s1) = Ok (tt, s3) /\
    reg_at s3 1 = Some 42.
Proof.
  assert (Hwf : wf disk_write_sample) by (apply wfb_wf; by_computation).
  assert (Hop : opcode_at disk_write_sample = 12) by by_computation.
  assert (Hreg : reg_at disk_write_sample (operand_at disk_write_sample)
                 = Some 42) by by_computation.
  split; [exact Hwf|]. split; [exact Hop|]. split; [exact Hreg|].
  destruct (disk_write_then_read_round_trip disk_write_sample 42 Hwf Hop Hreg)
    as (s1 & E1 & Hread).
  assert (Es1 : exists s, s = s1 /\ wfb (disk_read_sample s) = true).
  { vm_compute in E1. injection E1 as <-. eexists. split; reflexivity. }
  destruct Es1 as (s & <- & Hwfb).
  destruct (Hread (disk_read_sample s)) as (s3 & E3 & Hv & _).
  - apply (undisturbed_restart _ s (disk_read_sample s) _);
      [apply wfb_wf; exact Hwfb | reflexivity | apply undisturbed_refl].
  - by_computation.
  - by_computation.
  - change (operand_at (disk_read_sample s)) with 1. lia.
  - exists s, s3. split; [exact E1|]. split; [exact E3 | exact Hv].
Defined.

Lemma register_accesses_sample :
  wf (boot scenario) /\
  (CPU.step (boot scenario) <> Fail BadRegister <->
   indices_in_range (boot scenario)).
Proof.
  assert (Hwf : wf (boot scenario)) by (apply wfb_wf; by_computation).
  split; [exact Hwf|].
  exact (proj1 (proj2 (proj2
    (register_accesses_in_bounds_iff (boot scenario) Hwf)))).
Defined.

Lemma store_addresses_sample :
  wf (boot scenario) /\
  forall fuel, CPU.execute fuel (boot scenario) <> Fail OutOfBounds.
Proof.
  assert (Hwf : wf (boot scenario)) by (apply wfb_wf; by_computation).
  split; [exact Hwf|].
  exact (proj2 (proj2 (proj2 (proj2 (proj2
    (store_addresses_below_capacity (boot scenario) Hwf)))))).
Defined.

(** * Further properties of the code *)

(** ** The two stores on their own *)

Lemma ram_check_fails a : RAM_SIZE <= a -> (a <? RAM_SIZE) = false.
Proof. intros. apply Z.ltb_ge. assumption. Qed.

Lemma disk_check_fails a : DISK_SIZE <= a -> (a <? DISK_SIZE) = false.
Proof. intros. apply Z.ltb_ge. assumption. Qed.

(** X1. [RAM::write] then [RAM::read]: below [RAM_SIZE] the write succeeds,
    a read at the same address returns the value written and a read at any
    other address returns what it returned before; from [RAM_SIZE] on both
    fail the bounds check. *)
Theorem ram_write_then_read a v s :
  (a < RAM_SIZE ->
   exists s1 s2,
     RAM.write a v s = Ok (tt, s1) /\
     RAM.read a s1 = Ok (v, s2) /\
     memory s2 = memory s1 /\
     (forall b, b <> a -> byte_at (memory s1) b = byte_at (memory s) b) /\
     regs s1 = regs s /\ pc s1 = pc s /\ sp s1 = sp s /\ zf s1 = zf s /\
     file s1 = file s) /\
  (RAM_SIZE <= a ->
   RAM.write a v s = Fail OutOfBounds /\ RAM.read a s = Fail OutOfBounds).
Proof.
  split.
  - intros Ha. unfold RAM.write, RAM.read, bind, get, modify, ret.
    rewrite (proj2 (Z.ltb_lt a RAM_SIZE) Ha). eexists _, _.
    split; [reflexivity|]. sred. rewrite byte_at_insert.
    rewrite decide_True by reflexivity. split; [reflexivity|].
    split; [reflexivity|]. split; [|repeat split].
    intros b Hb. rewrite byte_at_insert. apply decide_False. congruence.
  - intros Ha. unfold RAM.write, RAM.read.
    rewrite (ram_check_fails a Ha). split; reflexivity.
Qed.

(** X2. [Disk::write] then [Disk::read], over the whole capacity of the
    disk (the engine itself only reaches the first 65536 bytes): below
    [DISK_SIZE] the write succeeds, a read at the same address returns the
    value written, every other address keeps its byte and the memory is
    untouched; from [DISK_SIZE] on both fail the bounds check. *)
Theorem disk_write_then_read a v s :
  (a < DISK_SIZE ->
   exists s1 s2,
     Disk.write a v s = Ok (tt, s1) /\
     Disk.read a s1 = Ok (v, s2) /\
     file s2 = file s1 /\
     (forall b, b <> a -> byte_at (file s1) b = byte_at (file s) b) /\
     memory s1 = memory s /\ regs s1 = regs s) /\
  (DISK_SIZE <= a ->
   Disk.write a v s = Fail OutOfBounds /\ Disk.read a s = Fail OutOfBounds).
Proof.
  split.
  - intros Ha. unfold Disk.write, Disk.read, bind, get, modify, ret.
    rewrite (proj2 (Z.ltb_lt a DISK_SIZE) Ha). eexists _, _.
    split; [reflexivity|]. sred. rewrite byte_at_insert.
    rewrite decide_True by reflexivity. split; [reflexivity|].
    split; [reflexivity|]. split; [|split; reflexivity].
    intros b Hb. rewrite byte_at_insert. apply decide_False. congruence.
  - intros Ha. unfold Disk.write, Disk.read.
    rewrite (disk_check_fails a Ha). split; reflexivity.
Qed.

(** ** Single instructions *)

Lemma operand_at_nonneg s : 0 <= operand_at s.
Proof. pose proof (operand_range (instr_at s)). unfold operand_at. lia. Qed.

Lemma regs_insert_other (l : list Z) n i v :
  0 <= n -> 0 <= i -> i <> n ->
  <[Z.to_nat n := v]> l !! Z.to_nat i = l !! Z.to_nat i.
Proof. intros Hn Hi Hne. apply list_lookup_insert_ne. lia. Qed.

(** X3. LOAD n,imm with n at most 3: register n holds the immediate byte,
    the other registers keep their values, the zero-flag says whether the
    immediate is 0, the program counter has advanced by 2 (modulo 65536),
    and stack pointer, memory and disk are untouched. *)
Theorem load_sets_register s :
  wf s ->
  opcode_at s = 1 ->
  operand_at s <= 3 ->
  exists s',
    CPU.step s = Ok (tt, s') /\
    reg_at s' (operand_at s) = Some (arg_at s 1) /\
    (forall i, 0 <= i -> i <> operand_at s -> reg_at s' i = reg_at s i) /\
    zf s' = (arg_at s 1 =? 0) /\
    pc s' = u16 (pc s + 2) /\
    sp s' = sp s /\ memory s' = memory s /\ file s' = file s /\
    running s' = running s.
Proof.
  intros Hwf E Hn. pose proof (operand_at_nonneg s) as Hn0.
  pose proof (wf_regs_len s Hwf) as Hlen.
  step_with Hwf E; reg_facts Hwf; try lia; try discriminate.
  simplify_eq. unfold reg_at, arg_at. sred. pc_norm.
  split; [apply list_lookup_insert_eq; lia|].
  split; [intros i Hi Hne; apply regs_insert_other; assumption|].
  repeat split.
Qed.

(** X4. STORE n,addr8 with register n holding v: the byte at addr8, an
    address below 256, becomes v, every other byte of memory is unchanged,
    and registers, zero-flag, stack pointer and disk are untouched. *)
Theorem store_writes_low_memory s v :
  wf s ->
  opcode_at s = 2 ->
  reg_at s (operand_at s) = Some v ->
  exists s',
    CPU.step s = Ok (tt, s') /\
    byte_at (memory s') (arg_at s 1) = v /\
    (forall b, b <> arg_at s 1 -> byte_at (memory s') b = byte_at (memory s) b) /\
    0 <= arg_at s 1 < 256 /\
    regs s' = regs s /\ zf s' = zf s /\ sp s' = sp s /\ file s' = file s /\
    pc s' = u16 (pc s + 2).
Proof.
  intros Hwf E Hv. unfold reg_at in Hv.
  step_with Hwf E; [|congruence].
  simplify_eq. sred. unfold arg_at. pc_norm.
  split; [rewrite byte_at_insert; apply decide_True; reflexivity|].
  split.
  { intros b Hb. rewrite byte_at_insert. apply decide_False. congruence. }
  split; [range_solve|]. repeat split.
Qed.

(** X5. JMP addr16 always executes: the program counter becomes addr16
    (low byte first) and nothing else of the machine changes. *)
Theorem jmp_sets_pc s :
  wf s ->
  opcode_at s = 5 ->
  exists s',
    CPU.step s = Ok (tt, s') /\
    pc s' = target_at s /\
    target_at s = arg_at s 2 * 256 + arg_at s 1 /\
    regs s' = regs s /\ zf s' = zf s /\ sp s' = sp s /\
    running s' = running s /\ memory s' = memory s /\ file s' = file s /\
    console s' = console s.
Proof.
  intros Hwf E.
  assert (Ht : target_at s = arg_at s 2 * 256 + arg_at s 1).
  { unfold target_at, arg_at. apply addr16_bytes; eauto with vm. }
  step_with Hwf E. sred.
  unfold target_at, arg_at in *. pc_norm.
  split; [reflexivity|]. split; [exact Ht|]. repeat split.
Qed.

(** X6. HALT: the iteration clears [running] and changes nothing else but
    the program counter, which is one past the HALT; the loop of [execute]
    returns that state whatever iterations it had left. *)
Theorem halt_stops_the_loop s :
  wf s ->
  running s = true ->
  opcode_at s = 15 ->
  exists s',
    CPU.step s = Ok (tt, s') /\
    (forall fuel, CPU.loop (S fuel) s = Ok s') /\
    running s' = false /\ pc s' = u16 (pc s + 1) /\
    regs s' = regs s /\ zf s' = zf s /\ sp s' = sp s /\
    memory s' = memory s /\ file s' = file s /\ console s' = console s.
Proof.
  intros Hwf Hrun E.
  assert (Es : CPU.step s = Ok (tt, set_running false (fetched s))).
  { rewrite step_eq by exact Hwf. rewrite E. reflexivity. }
  eexists. split; [exact Es|]. split; [|repeat split].
  intros fuel. rewrite (loop_step _ _ _ Hrun Es). apply loop_halted.
  reflexivity.
Qed.


(** X8. OUT n with register n holding v: the value is written on the
    console, and apart from the program counter nothing of the machine
    changes; no input is consumed. *)
Theorem out_emits_register s v :
  wf s ->
  opcode_at s = 10 ->
  reg_at s (operand_at s) = Some v ->
  exists s',
    CPU.step s = Ok (tt, s') /\
    console s' = console s ++ [Output (operand_at s) v] /\
    regs s' = regs s /\ zf s' = zf s /\ sp s' = sp s /\
    memory s' = memory s /\ file s' = file s /\ cin_pos s' = cin_pos s /\
    running s' = running s /\ pc s' = u16 (pc s + 1).
Proof.
  intros Hwf E Hv. unfold reg_at in Hv.
  step_with Hwf E; [|congruence].
  simplify_eq. sred. repeat split.
Qed.

(** X9. RET always executes, whatever the stack holds: the program counter
    is assembled from the bytes at sp+1 (low) and sp+2 (high), both taken
    modulo 256, and the stack pointer moves up by 2 modulo 256. With the
    stack pointer at its initial 0xFF, a RET takes its address from the
    bytes at addresses 0 and 1 and leaves the stack pointer at 1. *)
Theorem ret_pops_two_bytes s :
  wf s ->
  opcode_at s = 8 ->
  exists s',
    CPU.step s = Ok (tt, s') /\
    pc s' = byte_at (memory s) ((sp s + 2) mod 256) * 256 +
            byte_at (memory s) ((sp s + 1) mod 256) /\
    sp s' = (sp s + 2) mod 256 /\
    (sp s = 255 ->
     pc s' = byte_at (memory s) 1 * 256 + byte_at (memory s) 0 /\ sp s' = 1) /\
    memory s' = memory s /\ regs s' = regs s /\ zf s' = zf s /\
    running s' = running s.
Proof.
  intros Hwf E.
  destruct (ret_eq s Hwf E) as (s' & Es & Hpc & Hsp & Hregs & Hzf & Hrun).
  assert (Hmem : memory s' = memory s).
  { rewrite step_eq in Es by exact Hwf. rewrite E in Es.
    cbn [CPU.dispatch] in Es. unfold CPU.RET, bind in Es.
    rewrite pop_eq in Es. rewrite pop_eq in Es. cbv [modify] in Es.
    injection Es as <-. reflexivity. }
  assert (H2 : u8 (u8 (sp s + 1) + 1) = (sp s + 2) mod 256).
  { unfold u8. rewrite Z.add_mod_idemp_l by lia. f_equal. lia. }
  exists s'. split; [exact Es|].
  assert (Hpc' : pc s' = byte_at (memory s) ((sp s + 2) mod 256) * 256 +
                         byte_at (memory s) ((sp s + 1) mod 256)).
  { rewrite Hpc, H2. apply addr16_bytes; eauto with vm. }
  split; [exact Hpc'|]. split; [rewrite Hsp; exact H2|].
  split; [|auto].
  intros H255. rewrite Hpc', Hsp, H2, H255. repeat split.
Qed.

(** X10. CALL always executes and lays the return address, the address of
    the byte after the CALL, on the stack high byte first: the high byte at
    sp, the low byte at sp-1 (modulo 256); the stack pointer moves down by
    2 modulo 256 and no other byte of memory changes. *)
Theorem call_pushes_return_address s :
  wf s ->
  opcode_at s = 7 ->
  exists s',
    CPU.step s = Ok (tt, s') /\
    byte_at (memory s') (sp s) = ((pc s + 3) mod 65536) / 256 /\
    byte_at (memory s') ((sp s - 1) mod 256) = ((pc s + 3) mod 65536) mod 256 /\
    (forall b, b <> sp s -> b <> (sp s - 1) mod 256 ->
       byte_at (memory s') b = byte_at (memory s) b) /\
    sp s' = (sp s - 2) mod 256 /\
    pc s' = target_at s /\
    regs s' = regs s /\ zf s' = zf s.
Proof.
  intros Hwf E. pose proof (wf_sp s Hwf) as Hsp.
  destruct (call_eq s Hwf E) as (s' & Es & Hpc & Hsp' & Hmem & Hregs & Hzf & _).
  exists s'. split; [exact Es|].
  pose proof (u16_range (pc s + 3)) as Hr. unfold is_u16 in Hr.
  fold (u16 (pc s + 3)). fold (u8 (sp s - 1)).
  rewrite Hmem, !byte_at_insert.
  rewrite (decide_False (P := u8 (sp s - 1) = sp s))
    by (apply u8_pred_ne; exact Hsp).
  rewrite !(decide_True (P := sp s = sp s)) by reflexivity.
  rewrite (decide_True (P := u8 (sp s - 1) = u8 (sp s - 1))) by reflexivity.
  split.
  { rewrite u8_land_255, shiftr_8. apply u8_id. unfold is_u8.
    split; [apply Z.div_pos; lia | apply Z.div_lt_upper_bound; lia]. }
  split; [rewrite u8_land_255; reflexivity|].
  split.
  { intros b Hb1 Hb2. rewrite !byte_at_insert, !decide_False by congruence.
    reflexivity. }
  split.
  { rewrite Hsp'. unfold u8. rewrite Zminus_mod_idemp_l. f_equal. lia. }
  auto.
Qed.

(** ** What an instruction leaves alone *)

(** Close one frame goal after the symbolic execution of a case. *)
Ltac frame_solve :=
  intros; sred;
  try reflexivity; try lia; try congruence; try discriminate;
  try (rewrite list_lookup_insert_ne by congruence; reflexivity).

Lemma dispatch_regs_frame op n s :
  wf s ->
  wp (CPU.dispatch op n) s
     (fun _ s' =>
        (forall i, i <> Z.to_nat n -> regs s' !! i = regs s !! i) /\
        (sets_zf op = false -> regs s' = regs s) /\
        (op <> 7 -> op <> 8 -> sp s' = sp s) /\
        (op <> 15 -> known op -> running s' = running s) /\
        (running s' = running s \/ running s' = false))
     (fun _ => True).
Proof.
  intros Hwf.
  dispatch_split op n; wpgo; try exact I;
    try (subst op; cbn [sets_zf existsb Z.eqb orb Pos.eqb];
         repeat split; solve [frame_solve | left; reflexivity]).
  repeat split; try solve [frame_solve]; right; reflexivity.
Qed.



Lemma instr_length_unknown op : ~ known op -> instr_length op = 1.
Proof.
  unfold known. intros Hk.
  destruct op as [|p|p]; [exfalso; lia | | reflexivity].
  do 4 (try destruct p as [p|p|]); try reflexivity; exfalso; lia.
Qed.

Lemma dispatch_pc op n s :
  wf s ->
  wp (CPU.dispatch op n) s
     (fun _ s' =>
        op <> 5 -> op <> 6 -> op <> 7 -> op <> 8 ->
        pc s' = u16 (pc s + (instr_length op - 1)))
     (fun _ => True).
Proof.
  intros Hwf. pose proof (wf_pc s Hwf) as Hpc.
  assert (H0 : pc s = u16 (pc s + (1 - 1))).
  { change (1 - 1) with 0. rewrite Z.add_0_r. symmetry. apply u16_id.
    exact Hpc. }
  dispatch_split op n; wpgo; try exact I;
    try (subst op; cbn [instr_length]; intros; try congruence;
         solve [exact H0 | pc_norm; reflexivity]).
  intros _ _ _ _. rewrite (instr_length_unknown op) by assumption. exact H0.
Qed.

(** Lift a frame fact of the cases of the [switch] to a whole iteration. *)
Lemma step_inv s s' (Q : Machine -> Prop) :
  wf s -> CPU.step s = Ok (tt, s') ->
  wp (CPU.dispatch (opcode_at s) (operand_at s)) (fetched s)
     (fun _ s' => Q s') (fun _ => True) ->
  Q s'.
Proof.
  intros Hwf E H. rewrite step_eq in E by exact Hwf.
  exact (wp_ok _ _ _ _ _ _ H E).
Qed.

(** X11. Instruction lengths: an instruction that is not a jump, call or
    return leaves the program counter at the next instruction, 1 byte on
    for NOP, IN, OUT, HALT and the unknown opcodes, 2 bytes on for LOAD,
    STORE, ADD and SUB, 3 bytes on for DISK_READ and DISK_WRITE, counted
    modulo 65536 (an instruction at the top of the address space continues
    at address 0). *)
Theorem pc_advances_by_instruction_length s s' :
  wf s ->
  CPU.step s = Ok (tt, s') ->
  opcode_at s <> 5 -> opcode_at s <> 6 ->
  opcode_at s <> 7 -> opcode_at s <> 8 ->
  pc s' = (pc s + instr_length (opcode_at s)) mod 65536 /\
  1 <= instr_length (opcode_at s) <= 3.
Proof.
  intros Hwf E H5 H6 H7 H8. split.
  - pose proof (step_inv s s' _ Hwf E
      (dispatch_pc (opcode_at s) (operand_at s) _ (wf_fetched s Hwf))) as H.
    cbn beta in H. rewrite (H H5 H6 H7 H8). sred.
    rewrite u16_add_l. unfold u16. f_equal. lia.
  - destruct (dispatch_cases (opcode_at s) 0) as
      [[H _]|[[H _]|[[H _]|[[H _]|[[H _]|[[H _]|[[H _]|[[H _]|[[H _]|[[H _]|
      [[H _]|[[H _]|[[H _]|[[H _]|[H _]]]]]]]]]]]]]]];
      try (rewrite H; cbn [instr_length]; lia).
    rewrite (instr_length_unknown _ H). lia.
Qed.

(** X12. Registers: an instruction changes at most the register its low
    nibble names, and only LOAD, ADD, SUB, IN and DISK_READ change any;
    the register file keeps its four entries. *)
Theorem only_the_named_register_changes s s' :
  wf s ->
  CPU.step s = Ok (tt, s') ->
  (forall i, 0 <= i -> i <> operand_at s -> reg_at s' i = reg_at s i) /\
  (opcode_at s ∉ [1; 3; 4; 9; 11] -> regs s' = regs s) /\
  length (regs s') = 4%nat.
Proof.
  intros Hwf E.
  pose proof (step_inv s s' _ Hwf E
    (dispatch_regs_frame (opcode_at s) (operand_at s) _ (wf_fetched s Hwf)))
    as (Hother & Hsame & _).
  sred. pose proof (operand_at_nonneg s) as Hn0.
  split; [|split].
  - intros i Hi Hne. unfold reg_at. apply Hother. lia.
  - intros Hnot. apply Hsame. destruct (sets_zf (opcode_at s)) eqn:Ez;
      [|reflexivity].
    exfalso. apply Hnot. unfold sets_zf in Ez. cbn [existsb] in Ez.
    rewrite !orb_true_iff, !Z.eqb_eq in Ez.
    rewrite !elem_of_cons. intuition discriminate.
  - exact (wf_regs_len s' (step_wf _ _ Hwf E)).
Qed.




(** X15. Only CALL and RET move the stack pointer; only HALT and an
    unknown opcode change [running], and they clear it: no instruction
    restarts a halted engine. *)
Theorem stack_pointer_and_running_frame s s' :
  wf s ->
  CPU.step s = Ok (tt, s') ->
  (opcode_at s <> 7 -> opcode_at s <> 8 -> sp s' = sp s) /\
  (opcode_at s <> 15 -> known (opcode_at s) -> running s' = running s) /\
  (running s = false -> running s' = false).
Proof.
  intros Hwf E.
  pose proof (step_inv s s' _ Hwf E
    (dispatch_regs_frame (opcode_at s) (operand_at s) _ (wf_fetched s Hwf)))
    as (_ & _ & Hsp & Hrun & Hmono).
  sred. split; [exact Hsp|]. split; [exact Hrun|].
  intros Hoff. destruct Hmono as [H|H]; congruence.
Qed.



(** ** The loop of execute *)

Lemma loop_ok fuel s s' :
  CPU.loop fuel s = Ok s' -> running s' = false /\ reaches s s'.
Proof.
  revert s. induction fuel as [|fuel IH]; intros s; cbn [CPU.loop].
  - destruct (running s) eqn:Hrun; [discriminate|].
    intros [= <-]. split; [exact Hrun | apply rtc_refl].
  - destruct (running s) eqn:Hrun.
    + destruct (CPU.step s) as [[[] s1]|f] eqn:E; [|discriminate].
      intros H. destruct (IH s1 H) as [Hoff Hr]. split; [exact Hoff|].
      eapply rtc_l; [|exact Hr]. split; assumption.
    + intros [= <-]. split; [exact Hrun | apply rtc_refl].
Qed.

Lemma loop_more_fuel fuel k s s' :
  CPU.loop fuel s = Ok s' -> CPU.loop (fuel + k) s = Ok s'.
Proof.
  revert s. induction fuel as [|fuel IH]; intros s; cbn [CPU.loop Nat.add].
  - destruct (running s) eqn:Hrun; [discriminate|].
    intros H. rewrite loop_halted by exact Hrun. exact H.
  - destruct (running s) eqn:Hrun; [|exact id].
    destruct (CPU.step s) as [[[] s1]|f] eqn:E; [|discriminate].
    apply IH.
Qed.

(** X17. When [execute] returns, the engine is halted, the state returned
    is one the execution reached by whole iterations from the state
    [execute] started in (with [running] set), and a larger bound on the
    number of iterations returns the same state. *)
Theorem execute_returns_a_halted_state fuel s s' :
  CPU.execute fuel s = Ok s' ->
  running s' = false /\
  reaches (set_running true s) s' /\
  forall k, CPU.execute (fuel + k) s = Ok s'.
Proof.
  unfold CPU.execute. intros H.
  destruct (loop_ok _ _ _ H) as [Hoff Hr].
  split; [exact Hoff|]. split; [exact Hr|].
  intros k. exact (loop_more_fuel _ k _ _ H).
Qed.

Lemma nop_step s :
  wf s -> opcode_at s = 0 -> CPU.step s = Ok (tt, fetched s).
Proof.
  intros Hwf E. rewrite step_eq by exact Hwf. rewrite E. reflexivity.
Qed.

Lemma nops_loop fuel s :
  wf s -> running s = true ->
  (forall a, byte_at (memory s) a < 16) ->
  CPU.loop fuel s = Fail OutOfFuel.
Proof.
  revert s. induction fuel as [|fuel IH]; intros s Hwf Hrun Hnop.
  - cbn [CPU.loop]. rewrite Hrun. reflexivity.
  - assert (E : opcode_at s = 0).
    { unfold opcode_at, instr_at.
      assert (Hb : is_u8 (byte_at (memory s) (pc s))) by eauto with vm.
      specialize (Hnop (pc s)). unfold is_u8 in Hb.
      rewrite shiftr_4. rewrite Z.div_small by lia. reflexivity. }
    rewrite (loop_step _ _ _ Hrun (nop_step s Hwf E)).
    apply IH; [exact (wf_fetched s Hwf) | exact Hrun | exact Hnop].
Qed.

(** X18. A memory that holds no byte above 15, a zeroed memory for one,
    holds nothing but NOPs: the program counter runs through it and wraps
    around, and [execute] does not return within any number of
    iterations. *)
Theorem nops_never_halt s :
  wf s ->
  (forall a, byte_at (memory s) a < 16) ->
  forall fuel, CPU.execute fuel s = Fail OutOfFuel.
Proof.
  intros Hwf Hnop fuel. unfold CPU.execute.
  apply nops_loop; [exact (wf_set_running true s Hwf) | reflexivity |].
  exact Hnop.
Qed.


(** ** The stack as a stack *)

Lemma push_eq_sp val s :
  is_u8 (sp s) ->
  CPU.push val s =
  Ok (tt, set_memory (<[sp s := val]> (memory s))
            (record (RamWrite (sp s)) (set_sp (u8 (sp s - 1)) s))).
Proof.
  unfold is_u8. intros Hsp.
  unfold CPU.push, bind, get, modify, RAM.write. sred.
  rewrite ltb_RAM by lia. reflexivity.
Qed.

Lemma pop_n_snoc k s xs s1 :
  pop_n k s = Ok (xs, s1) ->
  pop_n (S k) s =
  Ok (xs ++ [byte_at (memory s1) (u8 (sp s1 + 1))],
      record (RamRead (u8 (sp s1 + 1))) (set_sp (u8 (sp s1 + 1)) s1)).
Proof.
  revert s xs. induction k as [|k IH]; intros s xs.
  - cbn [pop_n]. unfold ret. intros [= <- <-].
    unfold bind. rewrite pop_eq. reflexivity.
  - intros H. change (pop_n (S k)) with
      (bind CPU.pop (fun v => bind (pop_n k) (fun rest => ret (v :: rest))))
      in H.
    unfold bind at 1 in H. rewrite pop_eq in H. unfold bind in H.
    destruct (pop_n k _) as [[rest t]|f] eqn:Ek; [|discriminate].
    unfold ret in H. injection H as <- <-.
    specialize (IH _ _ Ek).
    change (pop_n (S (S k))) with
      (bind CPU.pop (fun v => bind (pop_n (S k)) (fun rest => ret (v :: rest)))).
    unfold bind at 1. rewrite pop_eq. unfold bind. rewrite IH. reflexivity.
Qed.

Lemma push_all_pop_n values :
  forall s, is_u8 (sp s) -> (length values <= 256)%nat ->
  exists s1 s2,
    push_all values s = Ok (tt, s1) /\
    pop_n (length values) s1 = Ok (rev values, s2) /\
    sp s2 = sp s /\ memory s2 = memory s1 /\
    sp s1 = u8 (sp s - Z.of_nat (length values)) /\
    (forall a,
       (forall j, 0 <= j < Z.of_nat (length values) -> a <> u8 (sp s - j)) ->
       byte_at (memory s1) a = byte_at (memory s) a).
Proof.
  induction values as [|v rest IH]; intros s Hsp Hlen.
  - exists s, s. cbn [push_all pop_n length rev]. unfold ret.
    repeat split. cbn. rewrite Z.sub_0_r. symmetry. apply u8_id. exact Hsp.
  - cbn [length] in Hlen.
    set (sa := set_memory (<[sp s := v]> (memory s))
                 (record (RamWrite (sp s)) (set_sp (u8 (sp s - 1)) s))).
    assert (Hsa : is_u8 (sp sa)) by apply u8_range.
    destruct (IH sa Hsa ltac:(lia))
      as (s1 & s2 & Epush & Epop & Hsp2 & Hmem2 & Hsp1 & Hframe).
    subst sa. sred.
    assert (Hval : byte_at (memory s2) (u8 (sp s2 + 1)) = v).
    { rewrite Hsp2, Hmem2. rewrite u8_pred_succ by exact Hsp.
      rewrite Hframe.
      - rewrite byte_at_insert. apply decide_True. reflexivity.
      - intros j Hj. unfold u8, is_u8 in *. Z.div_mod_to_equations. lia. }
    exists s1. eexists. split.
    { cbn [push_all]. unfold bind. rewrite push_eq_sp by exact Hsp.
      exact Epush. }
    split.
    { cbn [length rev]. rewrite (pop_n_snoc _ _ _ _ Epop), Hval.
      reflexivity. }
    sred. split.
    { rewrite Hsp2. apply u8_pred_succ. exact Hsp. }
    split; [exact Hmem2|]. split.
    { rewrite Hsp1. cbn [length]. unfold u8.
      rewrite Zminus_mod_idemp_l. f_equal. lia. }
    intros a Ha. rewrite Hframe.
    + rewrite byte_at_insert. apply decide_False.
      specialize (Ha 0 ltac:(cbn [length]; lia)). rewrite Z.sub_0_r in Ha.
      rewrite u8_id in Ha by exact Hsp. congruence.
    + intros j Hj.
      specialize (Ha (j + 1) ltac:(cbn [length]; lia)).
      intros Heq. apply Ha. rewrite Heq. unfold u8.
      rewrite Zminus_mod_idemp_l. f_equal. lia.
Qed.

(** X20. The stack is last-in first-out as long as it holds at most 256
    bytes: after any number up to 256 of pushes, as many pops return the
    pushed values in reverse order and leave the stack pointer where it
    was before the pushes. *)
Theorem pushes_then_pops_reverse values s :
  wf s ->
  (length values <= 256)%nat ->
  exists s1 s2,
    push_all values s = Ok (tt, s1) /\
    sp s1 = (sp s - Z.of_nat (length values)) mod 256 /\
    pop_n (length values) s1 = Ok (rev values, s2) /\
    sp s2 = sp s /\
    (forall a, 256 <= a -> byte_at (memory s2) a = byte_at (memory s) a).
Proof.
  intros Hwf Hlen.
  destruct (push_all_pop_n values s (wf_sp s Hwf) Hlen)
    as (s1 & s2 & Epush & Epop & Hsp2 & Hmem2 & Hsp1 & Hframe).
  exists s1, s2. split; [exact Epush|]. split; [exact Hsp1|].
  split; [exact Epop|]. split; [exact Hsp2|].
  intros a Ha. rewrite Hmem2. apply Hframe.
  intros j _ Heq. pose proof (u8_range (sp s - j)) as Hr.
  unfold is_u8 in Hr. lia.
Qed.

(** ** ADD and SUB together *)

Lemma alu_eq s a b :
  wf s ->
  opcode_at s = 3 \/ opcode_at s = 4 ->
  reg_at s (operand_at s) = Some a ->
  reg_at s (arg_at s 1) = Some b ->
  exists s',
    CPU.step s = Ok (tt, s') /\
    regs s' =
      <[Z.to_nat (operand_at s) :=
          (if opcode_at s =? 3 then a + b else a - b) mod 256]> (regs s) /\
    zf s' = ((if opcode_at s =? 3 then a + b else a - b) mod 256 =? 0) /\
    pc s' = u16 (pc s + 2) /\ memory s' = memory s /\
    sp s' = sp s /\ file s' = file s.
Proof.
  intros Hwf Hop Ha Hb.
  assert (Hia : is_u8 a) by (unfold reg_at in Ha; eauto with vm).
  assert (Hib : is_u8 b) by (unfold reg_at in Hb; eauto with vm).
  assert (Hlen : (Z.to_nat (operand_at s) <? length (regs s))%nat = true).
  { apply Nat.ltb_lt. exact (lookup_lt_Some _ _ _ Ha). }
  unfold reg_at, arg_at in *.
  destruct Hop as [E|E]; rewrite E; cbn [Z.eqb Pos.eqb];
    step_with Hwf E; sred; try congruence;
    repeat match goal with
    | H : <[_:=_]> _ !! _ = _ |- _ =>
        rewrite list_lookup_insert_eq in H
          by (apply Nat.ltb_lt; assumption)
    end; simplify_eq; pc_norm.
  - rewrite add_wraps by assumption. repeat split.
  - rewrite sub_wraps by assumption. repeat split.
Qed.

(** X21. ADD n,m directly followed by SUB n,m, with n and m different
    registers: the SUB undoes the ADD, so the registers are what they were
    before the two instructions, and the zero-flag says whether register n
    is 0. *)
Theorem add_then_sub_restores s a b :
  wf s ->
  opcode_at s = 3 ->
  reg_at s (operand_at s) = Some a ->
  reg_at s (arg_at s 1) = Some b ->
  arg_at s 1 <> operand_at s ->
  exists s1,
    CPU.step s = Ok (tt, s1) /\
    reg_at s1 (operand_at s) = Some ((a + b) mod 256) /\
    (opcode_at s1 = 4 -> operand_at s1 = operand_at s ->
     arg_at s1 1 = arg_at s 1 ->
     exists s2,
       CPU.step s1 = Ok (tt, s2) /\
       regs s2 = regs s /\ zf s2 = (a =? 0)).
Proof.
  intros Hwf E Ha Hb Hne.
  assert (Hia : is_u8 a) by (unfold reg_at in Ha; eauto with vm).
  assert (Hib : is_u8 b) by (unfold reg_at in Hb; eauto with vm).
  pose proof (operand_at_nonneg s) as Hn0.
  assert (Hm0 : 0 <= arg_at s 1).
  { assert (is_u8 (arg_at s 1)) by (unfold arg_at; eauto with vm).
    unfold is_u8 in *. lia. }
  destruct (alu_eq s a b Hwf (or_introl E) Ha Hb)
    as (s1 & E1 & Hregs1 & _).
  rewrite E in Hregs1. cbn [Z.eqb Pos.eqb] in Hregs1.
  pose proof (lookup_lt_Some _ _ _ Ha) as Hlt.
  assert (Ha1 : reg_at s1 (operand_at s) = Some ((a + b) mod 256)).
  { unfold reg_at. rewrite Hregs1. apply list_lookup_insert_eq. exact Hlt. }
  exists s1. split; [exact E1|]. split; [exact Ha1|].
  intros E2 Hn Hm.
  assert (Hb1 : reg_at s1 (arg_at s 1) = Some b).
  { unfold reg_at. rewrite Hregs1.
    rewrite regs_insert_other by assumption. exact Hb. }
  rewrite <- Hn in Ha1. rewrite <- Hm in Hb1.
  destruct (alu_eq s1 _ b (step_wf _ _ Hwf E1) (or_intror E2) Ha1 Hb1)
    as (s2 & Es2 & Hregs2 & Hzf2 & _).
  rewrite E2 in Hregs2, Hzf2. cbn [Z.eqb Pos.eqb] in Hregs2, Hzf2.
  assert (Hback : ((a + b) mod 256 - b) mod 256 = a).
  { unfold is_u8 in *. rewrite Zminus_mod_idemp_l.
    replace (a + b - b) with a by lia. apply Z.mod_small. lia. }
  rewrite Hback in Hregs2, Hzf2.
  exists s2. split; [exact Es2|]. split; [|exact Hzf2].
  rewrite Hregs2, Hn, Hregs1, list_insert_insert_eq.
  apply list_insert_id. exact Ha.
Qed.

(** X22. SUB n,n clears register n and sets the zero-flag, whatever the
    register held; ADD n,n doubles it modulo 256. *)
Theorem sub_self_clears_add_self_doubles s a :
  wf s ->
  reg_at s (operand_at s) = Some a ->
  arg_at s 1 = operand_at s ->
  (opcode_at s = 4 ->
   exists s', CPU.step s = Ok (tt, s') /\
     reg_at s' (operand_at s) = Some 0 /\ zf s' = true) /\
  (opcode_at s = 3 ->
   exists s', CPU.step s = Ok (tt, s') /\
     reg_at s' (operand_at s) = Some ((2 * a) mod 256)).
Proof.
  intros Hwf Ha Hm.
  pose proof (lookup_lt_Some _ _ _ Ha) as Hlt.
  assert (Hb : reg_at s (arg_at s 1) = Some a) by (rewrite Hm; exact Ha).
  split; intros E.
  - destruct (alu_eq s a a Hwf (or_intror E) Ha Hb)
      as (s' & Es & Hregs & Hzf & _).
    rewrite E in Hregs, Hzf. cbn [Z.eqb Pos.eqb] in Hregs, Hzf.
    rewrite Z.sub_diag in Hregs, Hzf. exists s'. split; [exact Es|].
    split; [|exact Hzf].
    unfold reg_at. rewrite Hregs. apply list_lookup_insert_eq. exact Hlt.
  - destruct (alu_eq s a a Hwf (or_introl E) Ha Hb)
      as (s' & Es & Hregs & _).
    rewrite E in Hregs. cbn [Z.eqb Pos.eqb] in Hregs.
    exists s'. split; [exact Es|].
    unfold reg_at. rewrite Hregs. replace (2 * a) with (a + a) by lia.
    apply list_lookup_insert_eq. exact Hlt.
Qed.

(** ** Comparing two registers *)

Lemma jz_eq s :
  wf s -> opcode_at s = 6 ->
  exists s',
    CPU.step s = Ok (tt, s') /\
    pc s' = (if zf s then target_at s else u16 (pc s + 3)) /\
    regs s' = regs s.
Proof.
  intros Hwf E.
  step_with Hwf E; sred; unfold target_at, arg_at; pc_norm;
    split; reflexivity.
Qed.

(** X23. SUB n,m directly followed by JZ addr16 branches on equality: the
    program counter ends at addr16 when registers n and m held the same
    value, and at the instruction after the JZ when they differed. *)
Theorem sub_then_jz_branches_on_equality s a b :
  wf s ->
  opcode_at s = 4 ->
  reg_at s (operand_at s) = Some a ->
  reg_at s (arg_at s 1) = Some b ->
  exists s1,
    CPU.step s = Ok (tt, s1) /\
    zf s1 = (a =? b) /\
    (opcode_at s1 = 6 ->
     exists s2,
       CPU.step s1 = Ok (tt, s2) /\
       pc s2 = (if a =? b then target_at s1 else u16 (pc s + 5))).
Proof.
  intros Hwf E Ha Hb.
  assert (Hia : is_u8 a) by (unfold reg_at in Ha; eauto with vm).
  assert (Hib : is_u8 b) by (unfold reg_at in Hb; eauto with vm).
  destruct (alu_eq s a b Hwf (or_intror E) Ha Hb)
    as (s1 & E1 & _ & Hzf & Hpc & _).
  rewrite E in Hzf. cbn [Z.eqb Pos.eqb] in Hzf.
  assert (Hz : zf s1 = (a =? b)).
  { rewrite Hzf. unfold is_u8 in *.
    destruct (Z.eqb_spec a b) as [->|Hne].
    - rewrite Z.sub_diag. reflexivity.
    - apply Z.eqb_neq. intros H0. apply Hne.
      revert H0. Z.div_mod_to_equations. lia. }
  exists s1. split; [exact E1|]. split; [exact Hz|].
  intros E2.
  destruct (jz_eq s1 (step_wf _ _ Hwf E1) E2) as (s2 & Es2 & Hpc2 & _).
  exists s2. split; [exact Es2|].
  rewrite Hpc2, Hz, Hpc. destruct (a =? b); [reflexivity|].
  pc_norm. reflexivity.
Qed.

(** ** Code under the stack *)

(** X24. The stack and the code share the first 256 bytes of memory: a
    CALL whose target is one of the two stack slots it writes overwrites
    the byte it is about to execute, and the instruction byte fetched next
    is the high byte (target = sp) or the low byte (target = sp-1 modulo
    256) of the return address, not what memory held there before. *)
Theorem call_into_its_own_stack_slot s :
  wf s ->
  opcode_at s = 7 ->
  exists s1,
    CPU.step s = Ok (tt, s1) /\
    (target_at s = sp s ->
     instr_at s1 = ((pc s + 3) mod 65536) / 256) /\
    (target_at s = (sp s - 1) mod 256 ->
     instr_at s1 = ((pc s + 3) mod 65536) mod 256).
Proof.
  intros Hwf E. pose proof (wf_sp s Hwf) as Hsp.
  destruct (call_eq s Hwf E) as (s1 & E1 & Hpc & _ & Hmem & _).
  exists s1. split; [exact E1|].
  pose proof (u16_range (pc s + 3)) as Hr. unfold is_u16 in Hr.
  fold (u16 (pc s + 3)). fold (u8 (sp s - 1)).
  unfold instr_at. rewrite Hpc, Hmem. split; intros Ht; rewrite Ht.
  - rewrite !byte_at_insert.
    rewrite (decide_False (P := u8 (sp s - 1) = sp s))
      by (apply u8_pred_ne; exact Hsp).
    rewrite decide_True by reflexivity.
    rewrite u8_land_255, shiftr_8. apply u8_id. unfold is_u8.
    split; [apply Z.div_pos; lia | apply Z.div_lt_upper_bound; lia].
  - rewrite byte_at_insert, decide_True by reflexivity.
    apply u8_land_255.
Qed.

(** ** The further properties at sample states *)

Lemma load_sample_loads :
  wf load_sample /\ opcode_at load_sample = 1 /\ operand_at load_sample <= 3 /\
  exists s', CPU.step load_sample = Ok (tt, s') /\
    reg_at s' 1 = Some 0 /\ zf s' = true /\ pc s' = 2.
Proof.
  assert (Hwf : wf load_sample) by (apply wfb_wf; by_computation).
  assert (Hop : opcode_at load_sample = 1) by by_computation.
  assert (Hn : operand_at load_sample <= 3).
  { change (operand_at load_sample) with 1. lia. }
  split; [exact Hwf|]. split; [exact Hop|]. split; [exact Hn|].
  destruct (load_sets_register load_sample Hwf Hop Hn)
    as (s' & E & Hreg & _ & Hzf & Hpc & _).
  exists s'. repeat split; assumption.
Defined.

Lemma store_sample_stores :
  wf store_sample /\ opcode_at store_sample = 2 /\
  reg_at store_sample (operand_at store_sample) = Some 7 /\
  exists s', CPU.step store_sample = Ok (tt, s') /\
    byte_at (memory s') 0x80 = 7.
Proof.
  assert (Hwf : wf store_sample) by (apply wfb_wf; by_computation).
  assert (Hop : opcode_at store_sample = 2) by by_computation.
  assert (Hv : reg_at store_sample (operand_at store_sample) = Some 7)
    by by_computation.
  split; [exact Hwf|]. split; [exact Hop|]. split; [exact Hv|].
  destruct (store_writes_low_memory store_sample 7 Hwf Hop Hv)
    as (s' & E & Hb & _).
  exists s'. split; [exact E | exact Hb].
Defined.

Lemma jmp_sample_jumps :
  wf jmp_sample /\ opcode_at jmp_sample = 5 /\
  exists s', CPU.step jmp_sample = Ok (tt, s') /\ pc s' = 0x1234.
Proof.
  assert (Hwf : wf jmp_sample) by (apply wfb_wf; by_computation).
  assert (Hop : opcode_at jmp_sample = 5) by by_computation.
  split; [exact Hwf|]. split; [exact Hop|].
  destruct (jmp_sets_pc jmp_sample Hwf Hop) as (s' & E & Hpc & _).
  exists s'. split; [exact E|]. rewrite Hpc. by_computation.
Defined.

Lemma halt_sample_halts :
  wf halt_sample /\ running halt_sample = true /\ opcode_at halt_sample = 15 /\
  exists s', (forall fuel, CPU.loop (S fuel) halt_sample = Ok s') /\
    running s' = false /\ pc s' = 1.
Proof.
  assert (Hwf : wf halt_sample) by (apply wfb_wf; by_computation).
  assert (Hrun : running halt_sample = true) by reflexivity.
  assert (Hop : opcode_at halt_sample = 15) by by_computation.
  split; [exact Hwf|]. split; [exact Hrun|]. split; [exact Hop|].
  destruct (halt_stops_the_loop halt_sample Hwf Hrun Hop)
    as (s' & _ & Hloop & Hoff & Hpc & _).
  exists s'. split; [exact Hloop|]. split; [exact Hoff | exact Hpc].
Defined.


Lemma out_sample_writes :
  wf out_sample /\ opcode_at out_sample = 10 /\
  reg_at out_sample (operand_at out_sample) = Some 9 /\
  exists s', CPU.step out_sample = Ok (tt, s') /\
    console s' = [Output 0 9].
Proof.
  assert (Hwf : wf out_sample) by (apply wfb_wf; by_computation).
  assert (Hop : opcode_at out_sample = 10) by by_computation.
  assert (Hv : reg_at out_sample (operand_at out_sample) = Some 9)
    by by_computation.
  split; [exact Hwf|]. split; [exact Hop|]. split; [exact Hv|].
  destruct (out_emits_register out_sample 9 Hwf Hop Hv) as (s' & E & Hcon & _).
  exists s'. split; [exact E | exact Hcon].
Defined.

Lemma ret_sample_returns :
  wf ret_sample /\ opcode_at ret_sample = 8 /\
  exists s', CPU.step ret_sample = Ok (tt, s') /\
    pc s' = 0x1280 /\ sp s' = 1.
Proof.
  assert (Hwf : wf ret_sample) by (apply wfb_wf; by_computation).
  assert (Hop : opcode_at ret_sample = 8) by by_computation.
  split; [exact Hwf|]. split; [exact Hop|].
  destruct (ret_pops_two_bytes ret_sample Hwf Hop)
    as (s' & E & _ & _ & H255 & _).
  destruct (H255 eq_refl) as [Hpc Hsp].
  exists s'. split; [exact E|]. split; [|exact Hsp].
  rewrite Hpc. by_computation.
Defined.

Lemma call_sample_pushes :
  wf call_sample /\ opcode_at call_sample = 7 /\
  exists s', CPU.step call_sample = Ok (tt, s') /\
    byte_at (memory s') 255 = 0 /\ byte_at (memory s') 254 = 3 /\
    sp s' = 253.
Proof.
  assert (Hwf : wf call_sample) by (apply wfb_wf; by_computation).
  assert (Hop : opcode_at call_sample = 7) by by_computation.
  split; [exact Hwf|]. split; [exact Hop|].
  destruct (call_pushes_return_address call_sample Hwf Hop)
    as (s' & E & Hhigh & Hlow & _ & Hsp & _).
  exists s'. split; [exact E|]. split; [exact Hhigh|].
  split; [exact Hlow | exact Hsp].
Defined.

Lemma load_sample_length :
  wf load_sample /\
  exists s', CPU.step load_sample = Ok (tt, s') /\ pc s' = 2.
Proof.
  assert (Hwf : wf load_sample) by (apply wfb_wf; by_computation).
  split; [exact Hwf|].
  assert (E : exists s', CPU.step load_sample = Ok (tt, s')).
  { eexists. by_computation. }
  destruct E as [s' E]. exists s'. split; [exact E|].
  assert (Hop : opcode_at load_sample = 1) by by_computation.
  destruct (pc_advances_by_instruction_length load_sample s' Hwf E
    ltac:(rewrite Hop; discriminate) ltac:(rewrite Hop; discriminate)
    ltac:(rewrite Hop; discriminate) ltac:(rewrite Hop; discriminate))
    as [Hpc _].
  rewrite Hpc, Hop. by_computation.
Defined.

Lemma load_sample_registers :
  wf load_sample /\
  exists s', CPU.step load_sample = Ok (tt, s') /\
    reg_at s' 0 = Some 0 /\ reg_at s' 2 = Some 0 /\ reg_at s' 3 = Some 0.
Proof.
  assert (Hwf : wf load_sample) by (apply wfb_wf; by_computation).
  split; [exact Hwf|].
  assert (E : exists s', CPU.step load_sample = Ok (tt, s')).
  { eexists. by_computation. }
  destruct E as [s' E]. exists s'. split; [exact E|].
  destruct (only_the_named_register_changes load_sample s' Hwf E)
    as (Hother & _).
  change (operand_at load_sample) with 1 in Hother.
  split; [|split].
  - rewrite (Hother 0) by lia. reflexivity.
  - rewrite (Hother 2) by lia. reflexivity.
  - rewrite (Hother 3) by lia. reflexivity.
Defined.



Lemma load_sample_keeps_sp :
  wf load_sample /\
  exists s', CPU.step load_sample = Ok (tt, s') /\
    sp s' = 255 /\ running s' = false.
Proof.
  assert (Hwf : wf load_sample) by (apply wfb_wf; by_computation).
  split; [exact Hwf|].
  assert (E : exists s', CPU.step load_sample = Ok (tt, s')).
  { eexists. by_computation. }
  destruct E as [s' E]. exists s'. split; [exact E|].
  assert (Hop : opcode_at load_sample = 1) by by_computation.
  destruct (stack_pointer_and_running_frame load_sample s' Hwf E)
    as (Hsp & _ & Hoff).
  split.
  - rewrite Hsp by (rewrite Hop; discriminate). reflexivity.
  - apply Hoff. reflexivity.
Defined.


Lemma halting_program_returns :
  exists s', CPU.execute 2 (boot scenario_halting) = Ok s' /\
    running s' = false /\
    forall k, CPU.execute (2 + k) (boot scenario_halting) = Ok s'.
Proof.
  assert (E : exists s', CPU.execute 2 (boot scenario_halting) = Ok s').
  { eexists. by_computation. }
  destruct E as [s' E]. exists s'. split; [exact E|].
  destruct (execute_returns_a_halted_state 2 (boot scenario_halting) s' E)
    as (Hoff & _ & Hmore).
  split; [exact Hoff | exact Hmore].
Defined.

Lemma zeroed_memory_never_halts :
  wf (boot []) /\ (forall a, byte_at (memory (boot [])) a < 16) /\
  forall fuel, CPU.execute fuel (boot []) = Fail OutOfFuel.
Proof.
  assert (Hwf : wf (boot [])) by (apply wfb_wf; by_computation).
  assert (Hnop : forall a, byte_at (memory (boot [])) a < 16).
  { intros a. unfold byte_at. cbn. rewrite lookup_empty. cbn. lia. }
  split; [exact Hwf|]. split; [exact Hnop|].
  exact (nops_never_halt (boot []) Hwf Hnop).
Defined.


Lemma three_pushes_three_pops :
  wf (boot []) /\
  exists s1 s2,
    push_all [1; 2; 3] (boot []) = Ok (tt, s1) /\ sp s1 = 252 /\
    pop_n 3 s1 = Ok ([3; 2; 1], s2) /\ sp s2 = 255.
Proof.
  assert (Hwf : wf (boot [])) by (apply wfb_wf; by_computation).
  split; [exact Hwf|].
  destruct (pushes_then_pops_reverse [1; 2; 3] (boot []) Hwf
    ltac:(cbn [length]; lia))
    as (s1 & s2 & E1 & Hsp1 & E2 & Hsp2 & _).
  exists s1, s2. split; [exact E1|]. split; [exact Hsp1|].
  split; [exact E2 | exact Hsp2].
Defined.

Lemma add_then_sub_sample_restores :
  wf add_then_sub_sample /\ opcode_at add_then_sub_sample = 3 /\
  exists s1 s2,
    CPU.step add_then_sub_sample = Ok (tt, s1) /\
    reg_at s1 0 = Some 44 /\
    CPU.step s1 = Ok (tt, s2) /\ regs s2 = [200; 100; 0; 0].
Proof.
  assert (Hwf : wf add_then_sub_sample) by (apply wfb_wf; by_computation).
  assert (Hop : opcode_at add_then_sub_sample = 3) by by_computation.
  split; [exact Hwf|]. split; [exact Hop|].
  destruct (add_then_sub_restores add_then_sub_sample 200 100 Hwf Hop
    ltac:(by_computation) ltac:(by_computation)
    ltac:(change (1 <> 0); lia))
    as (s1 & E1 & Hreg & Hnext).
  assert (Hs1 : opcode_at s1 = 4 /\
    operand_at s1 = operand_at add_then_sub_sample /\
    arg_at s1 1 = arg_at add_then_sub_sample 1).
  { vm_compute in E1. injection E1 as <-. repeat split; by_computation. }
  destruct Hs1 as (H1 & H2 & H3).
  destruct (Hnext H1 H2 H3) as (s2 & E2 & Hregs & _).
  exists s1, s2. split; [exact E1|]. split; [exact Hreg|].
  split; [exact E2 | exact Hregs].
Defined.

Lemma sub_self_sample_clears :
  wf sub_self_sample /\ opcode_at sub_self_sample = 4 /\
  exists s', CPU.step sub_self_sample = Ok (tt, s') /\
    reg_at s' 1 = Some 0 /\ zf s' = true.
Proof.
  assert (Hwf : wf sub_self_sample) by (apply wfb_wf; by_computation).
  assert (Hop : opcode_at sub_self_sample = 4) by by_computation.
  split; [exact Hwf|]. split; [exact Hop|].
  exact (proj1 (sub_self_clears_add_self_doubles sub_self_sample 77 Hwf
    ltac:(by_computation) ltac:(by_computation)) Hop).
Defined.

Lemma compare_sample_branches :
  wf compare_sample /\ opcode_at compare_sample = 4 /\
  exists s1 s2,
    CPU.step compare_sample = Ok (tt, s1) /\ zf s1 = true /\
    CPU.step s1 = Ok (tt, s2) /\ pc s2 = 0x1234.
Proof.
  assert (Hwf : wf compare_sample) by (apply wfb_wf; by_computation).
  assert (Hop : opcode_at compare_sample = 4) by by_computation.
  split; [exact Hwf|]. split; [exact Hop|].
  destruct (sub_then_jz_branches_on_equality compare_sample 5 5 Hwf Hop
    ltac:(by_computation) ltac:(by_computation))
    as (s1 & E1 & Hzf & Hnext).
  assert (Hs1 : opcode_at s1 = 6 /\ target_at s1 = 0x1234).
  { vm_compute in E1. injection E1 as <-. split; by_computation. }
  destruct Hs1 as (H1 & Ht).
  destruct (Hnext H1) as (s2 & E2 & Hpc).
  exists s1, s2. split; [exact E1|]. split; [exact Hzf|].
  split; [exact E2|]. rewrite Hpc. exact Ht.
Defined.

Lemma call_into_stack_sample_clobbers :
  wf call_into_stack_sample /\ opcode_at call_into_stack_sample = 7 /\
  target_at call_into_stack_sample = sp call_into_stack_sample /\
  exists s1, CPU.step call_into_stack_sample = Ok (tt, s1) /\
    instr_at s1 = 2.
Proof.
  assert (Hwf : wf call_into_stack_sample) by (apply wfb_wf; by_computation).
  assert (Hop : opcode_at call_into_stack_sample = 7) by by_computation.
  assert (Ht : target_at call_into_stack_sample = sp call_into_stack_sample)
    by by_computation.
  split; [exact Hwf|]. split; [exact Hop|]. split; [exact Ht|].
  destruct (call_into_its_own_stack_slot call_into_stack_sample Hwf Hop)
    as (s1 & E1 & Hhigh & _).
  exists s1. split; [exact E1 | exact (Hhigh Ht)].
Defined.
